(** * use_whisper.py: a shallow embedding and its verified properties

    The program is a command-line front end of a speech-to-text library.
    Its own logic is the formatting of time stamps, the choice of the input
    file, the derivation of the output path and the order of the calls into
    the library.  This development embeds that logic:

    - Python floats are IEEE-754 binary64 values ([spec_float] of the
      Standard Library, precision 53, [emax] 1024), with CPython's
      algorithms for [int(x)], [x // y] and [x % y];
    - exceptions are a result type, printing and the file system are
      explicit state, calls into the external library are operations on
      an abstract library state that are recorded in a call log;
    - the file system is a tree of directories and regular files in
      which paths are resolved component by component, so that different
      spellings of a path name the same file. *)

From Stdlib Require Import ZArith Lia Bool List Ascii String.
From Stdlib Require Import QArith Qpower Qround Lqa.
From Stdlib Require Import Floats.SpecFloat.
From stdpp Require Import base option strings list.

Open Scope string_scope.
Open Scope Z_scope.

(** ** Exceptions and results *)

Inductive exn : Type :=
| ValueError
| OverflowError
| ZeroDivisionError
| KeyError
| FileNotFoundError
| FileExistsError
| NotADirectoryError
| IsADirectoryError
| LibraryError (what : string).

Inductive res (A : Type) : Type :=
| Ok (a : A)
| Raise (e : exn).
Arguments Ok {A} a.
Arguments Raise {A} e.

Definition res_bind {A B : Type} (r : res A) (k : A -> res B) : res B :=
  match r with
  | Ok a => k a
  | Raise e => Raise e
  end.

Notation "'let!' x ':=' r 'in' k" := (res_bind r (fun x => k))
  (at level 10, x name, r at level 200, k at level 200).

(** ** Python floats: IEEE-754 binary64 *)

Module Float64.

Definition prec : Z := 53.
Definition emax : Z := 1024.

Definition float : Type := spec_float.

Definition add : float -> float -> float := SFadd prec emax.
Definition sub : float -> float -> float := SFsub prec emax.
Definition mul : float -> float -> float := SFmul prec emax.
Definition div : float -> float -> float := SFdiv prec emax.
Definition ltb : float -> float -> bool := SFltb.
Definition leb : float -> float -> bool := SFleb.

(** Conversion of an integer, correctly rounded (round half to even). *)
Definition of_Z (z : Z) : float := binary_normalize prec emax z 0 false.

(** The value of a decimal literal [n / 10^k]: both operands of the
    division are exact, so the quotient is the correctly rounded
    literal, as Python's parser produces it. *)
Definition of_decimal (n : Z) (k : Z) : float := div (of_Z n) (of_Z (10 ^ k)).

Definition is_finite (x : float) : bool :=
  match x with
  | S754_zero _ | S754_finite _ _ _ => true
  | _ => false
  end.

Definition is_zero (x : float) : bool :=
  match x with
  | S754_zero _ => true
  | _ => false
  end.

(** [x < 0] of C: false on zeros and on NaN. *)
Definition is_neg (x : float) : bool :=
  match x with
  | S754_finite true _ _ | S754_infinity true => true
  | _ => false
  end.

Definition sign_bit (x : float) : bool :=
  match x with
  | S754_zero s | S754_infinity s | S754_finite s _ _ => s
  | S754_nan => false
  end.

(** Integer part of a magnitude [m * 2^e] and whether a fraction is lost. *)
Definition int_part (m : positive) (e : Z) : Z :=
  if 0 <=? e then Z.pos m * 2 ^ e else Z.pos m / 2 ^ (- e).

Definition has_frac (m : positive) (e : Z) : bool :=
  if 0 <=? e then false else negb (Z.pos m mod 2 ^ (- e) =? 0).

(** Truncation toward zero; [None] on infinities and NaN. *)
Definition trunc (x : float) : option Z :=
  match x with
  | S754_zero _ => Some 0
  | S754_finite s m e => Some (cond_Zopp s (int_part m e))
  | _ => None
  end.

(** C [floor]. *)
Definition floor (x : float) : float :=
  match x with
  | S754_finite s m e =>
      let n := int_part m e in
      let n' := if s && has_frac m e then n + 1 else n in
      binary_normalize prec emax (cond_Zopp s n') 0 s
  | _ => x
  end.

(** C [fmod]: the exact remainder of the truncated division, with the
    sign of the dividend. *)
Definition fmod (x y : float) : float :=
  match x, y with
  | S754_nan, _ | _, S754_nan => S754_nan
  | S754_infinity _, _ => S754_nan
  | _, S754_zero _ => S754_nan
  | S754_zero _, _ => x
  | S754_finite _ _ _, S754_infinity _ => x
  | S754_finite sx mx ex, S754_finite _ my ey =>
      let ez := Z.min ex ey in
      let r := (Z.pos mx * 2 ^ (ex - ez)) mod (Z.pos my * 2 ^ (ey - ez)) in
      binary_normalize prec emax (cond_Zopp sx r) ez sx
  end.

(** C [copysign(0.0, y)]. *)
Definition zero_with_sign_of (y : float) : float := S754_zero (sign_bit y).

End Float64.

Import Float64.

(** ** CPython's float operations used by the program *)

(** [int(x)] for a float [x] (PyLong_FromDouble). *)
Definition py_int (x : float) : res Z :=
  match x with
  | S754_nan => Raise ValueError
  | S754_infinity _ => Raise OverflowError
  | _ => match trunc x with Some z => Ok z | None => Raise ValueError end
  end.

(** Conversion of an int operand of a float operation (PyLong_AsDouble). *)
Definition py_float (z : Z) : res float :=
  let f := of_Z z in
  if is_finite f then Ok f else Raise OverflowError.

Definition one : float := of_Z 1.
Definition half : float := div (of_Z 1) (of_Z 2).

(** [_float_div_mod] of floatobject.c: the floor quotient and the
    remainder of two floats, the divisor being non-zero. *)
Definition float_div_mod (vx wx : float) : float * float :=
  let mod0 := fmod vx wx in
  let div0 := div (sub vx mod0) wx in
  let '(md, dv) :=
    if negb (is_zero mod0) then
      if negb (Bool.eqb (is_neg wx) (is_neg mod0))
      then (add mod0 wx, sub div0 one)
      else (mod0, div0)
    else (zero_with_sign_of wx, div0) in
  let floordiv :=
    if negb (is_zero dv) then
      let fl := floor dv in
      if ltb half (sub dv fl) then add fl one else fl
    else zero_with_sign_of (div vx wx) in
  (floordiv, md).

(** [x // y] (float_floor_div). *)
Definition float_floor_div (vx wx : float) : res float :=
  if is_zero wx then Raise ZeroDivisionError
  else Ok (fst (float_div_mod vx wx)).

(** [x % y] (float_rem). *)
Definition float_rem (vx wx : float) : res float :=
  if is_zero wx then Raise ZeroDivisionError
  else
    let mod0 := fmod vx wx in
    Ok (if negb (is_zero mod0) then
          if negb (Bool.eqb (is_neg wx) (is_neg mod0)) then add mod0 wx else mod0
        else zero_with_sign_of wx).

(** ** Decimal formatting of integers *)

Definition digit_char (d : Z) : ascii := ascii_of_nat (48 + Z.to_nat d).

(** The decimal digits of [n >= 0], most significant first, in front of
    [acc]; [fuel] bounds the number of digits. *)
Fixpoint dec_digits (fuel : nat) (n : Z) (acc : string) : string :=
  let acc' := String (digit_char (n mod 10)) acc in
  match fuel with
  | O => acc'
  | S fuel' => if n <? 10 then acc' else dec_digits fuel' (n / 10) acc'
  end.

Definition dec_of_nonneg (n : Z) : string :=
  dec_digits (Z.to_nat (Z.log2 n)) n "".

Fixpoint zeros (k : nat) : string :=
  match k with
  | O => ""
  | S k' => String "0" (zeros k')
  end.

(** [format(n, "0<width>")] for an int: the sign first, then zeros up to
    the width, then the digits; longer numbers are printed in full. *)
Definition format_int (width : nat) (n : Z) : string :=
  let sgn := if n <? 0 then "-" else "" in
  let ds := dec_of_nonneg (Z.abs n) in
  sgn +:+ zeros (width - String.length sgn - String.length ds) +:+ ds.

(** ** format_time *)

Definition format_time (seconds : float) : res string :=
  let! whole := py_int seconds in
  let! whole_f := py_float whole in
  let! k1000 := py_float 1000 in
  let! milliseconds := py_int (mul (sub seconds whole_f) k1000) in
  let! k3600 := py_float 3600 in
  let! h := float_floor_div seconds k3600 in
  let! hours := py_int h in
  let! r := float_rem seconds k3600 in
  let! k60 := py_float 60 in
  let! m := float_floor_div r k60 in
  let! minutes := py_int m in
  let! s := float_rem seconds k60 in
  let! secs := py_int s in
  Ok (format_int 2 hours +:+ ":" +:+ format_int 2 minutes +:+ ":" +:+
      format_int 2 secs +:+ "." +:+ format_int 3 milliseconds).

(** [format(x, ".2f")] for a float: two decimals, the exact binary value
    rounded half to even; the sign bit is printed also on a zero result. *)
Definition round_half_even_div (num den : Z) : Z :=
  let q := num / den in
  let r := num mod den in
  match 2 * r ?= den with
  | Lt => q
  | Eq => if Z.even q then q else q + 1
  | Gt => q + 1
  end.

Definition format_float_2f (x : float) : string :=
  match x with
  | S754_nan => "nan"
  | S754_infinity s => if s then "-inf" else "inf"
  | S754_zero s => (if s then "-" else "") +:+ "0.00"
  | S754_finite s m e =>
      let n := if 0 <=? e then Z.pos m * 2 ^ e * 100
               else round_half_even_div (Z.pos m * 100) (2 ^ (- e)) in
      (if s then "-" else "") +:+ dec_of_nonneg (n / 100) +:+ "." +:+
      format_int 2 (n mod 100)
  end.

(** ** Strings and paths (posixpath) *)

Definition slash : ascii := "/"%char.
Definition dot : ascii := "."%char.

(** [s.rfind(c)] for a one-character [c]: the last index, or -1. *)
Fixpoint rfind (c : ascii) (s : string) : Z :=
  match s with
  | EmptyString => -1
  | String a r =>
      let i := rfind c r in
      if 0 <=? i then i + 1 else if Ascii.eqb a c then 0 else -1
  end.

(** [s[i:]] and [s[:i]] for [i >= 0]. *)
Definition slice_from (i : Z) (s : string) : string :=
  substring (Z.to_nat i) (String.length s - Z.to_nat i) s.
Definition slice_to (i : Z) (s : string) : string :=
  substring 0 (Z.to_nat i) s.

Definition startswith (s pre : string) : bool := String.prefix pre s.

Definition endswith (s suf : string) : bool :=
  (String.length suf <=? String.length s)%nat &&
  String.eqb (substring (String.length s - String.length suf) (String.length suf) s) suf.

(** [s.lower()] on the ASCII letters; other bytes are kept. *)
Definition lower_char (a : ascii) : ascii :=
  let n := nat_of_ascii a in
  if ((65 <=? n) && (n <=? 90))%nat then ascii_of_nat (n + 32) else a.

Fixpoint lower (s : string) : string :=
  match s with
  | EmptyString => EmptyString
  | String a r => String (lower_char a) (lower r)
  end.

(** [s.rstrip("/")]. *)
Fixpoint rstrip_slash (s : string) : string :=
  match s with
  | EmptyString => EmptyString
  | String a r =>
      match rstrip_slash r with
      | EmptyString => if Ascii.eqb a slash then EmptyString else String a EmptyString
      | r' => String a r'
      end
  end.

Definition os_path_join (a b : string) : string :=
  if startswith b "/" then b
  else if String.eqb a "" || endswith a "/" then a +:+ b
  else a +:+ "/" +:+ b.

Definition os_path_basename (p : string) : string :=
  slice_from (rfind slash p + 1) p.

Definition os_path_dirname (p : string) : string :=
  let hd := slice_to (rfind slash p + 1) p in
  match rstrip_slash hd with
  | EmptyString => hd
  | stripped => stripped
  end.

(** The loop of [genericpath._splitext] that skips the leading dots of
    the file name: is a character other than a dot found among the [n]
    characters from index [i] on? *)
Fixpoint non_dot_before (n : nat) (i : Z) (p : string) : bool :=
  match n with
  | O => false
  | S n' =>
      if negb (String.eqb (substring (Z.to_nat i) 1 p) ".") then true
      else non_dot_before n' (i + 1) p
  end.

Definition os_path_splitext (p : string) : string * string :=
  let sepIndex := rfind slash p in
  let dotIndex := rfind dot p in
  if (sepIndex <? dotIndex) &&
     non_dot_before (Z.to_nat (dotIndex - (sepIndex + 1))) (sepIndex + 1) p
  then (slice_to dotIndex p, slice_from dotIndex p)
  else (p, "").

(** ** Data model: the result of a transcription *)

Record Word : Type := {
  word_start : float;          (* word["start"] *)
  word_end : float;            (* word["end"] *)
  word_text : string
}.

Record Segment : Type := {
  seg_start : float;
  seg_end : float;
  seg_text : string;                   (* seg["text"] *)
  seg_words : option (list Word)       (* seg.get("words", []) *)
}.

Record TranscriptionResult : Type := {
  text : string;                       (* result["text"] *)
  segments : option (list Segment);    (* result.get("segments", []) *)
  language : string
}.

(** ** The file system

    The files are the tree of the directory in which the program runs,
    taken as the root: a directory holds its entries in listing order,
    each with a name that is free of slashes.  A path is resolved as
    POSIX does it, component by component: an empty component or [.]
    stays, [..] goes to the parent (the root is its own parent), and a
    name is looked up only in what is a directory.  There are no symbolic
    links and no permissions. *)

#[warnings="-register-all"] Inductive node : Type :=
| File (content : string)
| Dir (entries : list (string * node)).

(** The entries of the root directory. *)
Definition tree : Type := list (string * node).

Definition is_dir (n : option node) : bool :=
  match n with
  | Some (Dir _) => true
  | _ => false
  end.

(** The entry of a directory with a given name. *)
Fixpoint entry (name : string) (es : list (string * node)) : option node :=
  match es with
  | [] => None
  | (k, v) :: rest => if String.eqb k name then Some v else entry name rest
  end.

(** The node at a place, given by the names that lead to it from the
    root. *)
Fixpoint node_at (t : tree) (place : list string) : option node :=
  match place with
  | [] => Some (Dir t)
  | name :: rest =>
      match entry name t with
      | Some (Dir sub) => node_at sub rest
      | Some (File c) => match rest with [] => Some (File c) | _ :: _ => None end
      | None => None
      end
  end.

(** The entry [name] replaced, or added at the end of the listing. *)
Fixpoint set_entry (name : string) (n : node) (es : list (string * node))
  : list (string * node) :=
  match es with
  | [] => [(name, n)]
  | (k, v) :: rest =>
      if String.eqb k name then (k, n) :: rest else (k, v) :: set_entry name n rest
  end.

(** The tree with [n] at a place whose directory exists; the same tree
    when it does not. *)
Fixpoint put (place : list string) (n : node) (t : tree) : tree :=
  match place with
  | [] => t
  | name :: rest =>
      match rest with
      | [] => set_entry name n t
      | _ :: _ =>
          match entry name t with
          | Some (Dir sub) => set_entry name (Dir (put rest n sub)) t
          | _ => t
          end
      end
  end.

(** [p.split("/")]: the components of a path. *)
Fixpoint split_slash (s : string) : list string :=
  match s with
  | EmptyString => [EmptyString]
  | String c r =>
      if Ascii.eqb c "/" then EmptyString :: split_slash r
      else match split_slash r with
           | h :: rest => String c h :: rest
           | [] => [String c EmptyString]
           end
  end.

(** A component is resolved in a directory only: ENOTDIR in a regular
    file, ENOENT in what does not exist. *)
Definition check_dir (t : tree) (cur : list string) : res unit :=
  match node_at t cur with
  | Some (Dir _) => Ok tt
  | Some (File _) => Raise NotADirectoryError
  | None => Raise FileNotFoundError
  end.

(** The place reached from [cur] along the components; the last one need
    not exist. *)
Fixpoint walk (t : tree) (cur : list string) (comps : list string) : res (list string) :=
  match comps with
  | [] => Ok cur
  | c :: rest =>
      let! _ := check_dir t cur in
      if String.eqb c "" || String.eqb c "." then walk t cur rest
      else if String.eqb c ".." then walk t (removelast cur) rest
      else walk t (cur ++ [c])%list rest
  end.

(** The place that a path names; the empty path names nothing. *)
Definition resolve (t : tree) (p : string) : res (list string) :=
  if String.eqb p "" then Raise FileNotFoundError else walk t [] (split_slash p).

(** [os.stat(p)], as far as the kind of the node and its content go. *)
Definition os_stat (t : tree) (p : string) : res node :=
  let! k := resolve t p in
  match node_at t k with
  | Some n => Ok n
  | None => Raise FileNotFoundError
  end.

(** [t !! p] is what the path [p] names in [t], if anything, and
    [<[p := n]> t] is [t] with [n] at the place that [p] names. *)
#[export] Instance tree_lookup : Lookup string node tree :=
  fun p t => match os_stat t p with Ok n => Some n | Raise _ => None end.

#[export] Instance tree_insert : Insert string node tree :=
  fun p n t => match resolve t p with Ok k => put k n t | Raise _ => t end.

(** The empty working directory. *)
#[export] Instance tree_empty : Empty tree := [].

(** The components of a path without the empty ones at its end. *)
Fixpoint drop_trailing_empty (comps : list string) : list string :=
  match comps with
  | [] => []
  | c :: rest =>
      match drop_trailing_empty rest with
      | [] => if String.eqb c "" then [] else [c]
      | rest' => c :: rest'
      end
  end.

(** [open(p, O_WRONLY | O_CREAT | O_TRUNC)] of Linux: the place of the
    regular file that is created or emptied.  The directory of the file
    has to exist; a path that ends in a slash, in [.] or in [..], or that
    names a directory, is refused with EISDIR. *)
Definition open_for_writing (t : tree) (p : string) : res (list string) :=
  if String.eqb p "" then Raise FileNotFoundError
  else
    let comps := split_slash p in
    let name := List.last comps "" in
    if String.eqb name "" then
      let! dir := walk t [] (removelast (drop_trailing_empty comps)) in
      let! _ := check_dir t dir in
      Raise IsADirectoryError
    else
      let! dir := walk t [] (removelast comps) in
      let! _ := check_dir t dir in
      if String.eqb name "." || String.eqb name ".." then Raise IsADirectoryError
      else match node_at t (dir ++ [name])%list with
           | Some (Dir _) => Raise IsADirectoryError
           | _ => Ok (dir ++ [name])%list
           end.

(** [mkdir(p)] of Linux: the place of the directory that is created.
    Slashes at the end are allowed; what exists already, and a path that
    ends in [.] or [..], gives EEXIST. *)
Definition mkdir_place (t : tree) (p : string) : res (list string) :=
  if String.eqb p "" then Raise FileNotFoundError
  else
    let comps := drop_trailing_empty (split_slash p) in
    let name := List.last comps "" in
    let! dir := walk t [] (removelast comps) in
    let! _ := check_dir t dir in
    if String.eqb name "" || String.eqb name "." || String.eqb name ".."
    then Raise FileExistsError
    else match node_at t (dir ++ [name])%list with
         | Some _ => Raise FileExistsError
         | None => Ok (dir ++ [name])%list
         end.

(** ** The external library

    The speech-to-text library and the clock are outside the program.
    An operation acts on the state of the library (loaded models, the
    audio files it reads, devices, random numbers, the clock) and returns
    a value or raises. *)

Record DecodingOptions : Type := {
  opt_language : string;
  opt_fp16 : bool
}.

Class Whisper : Type := {
  lib_state : Type;
  model : Type;
  audio : Type;
  mel : Type;
  device : Type;
  decoding_result : Type;
  time_time : lib_state -> lib_state * float;
  load_model : string -> lib_state -> lib_state * res model;
  load_audio : string -> lib_state -> lib_state * res audio;
  pad_or_trim : audio -> lib_state -> lib_state * res audio;
  model_n_mels : model -> Z;                       (* model.dims.n_mels *)
  model_device : model -> device;                  (* model.device *)
  log_mel_spectrogram : audio -> Z -> lib_state -> lib_state * res mel;
  mel_to : mel -> device -> lib_state -> lib_state * res mel;
  (* the probabilities of model.detect_language, in the order of the dict *)
  detect_language : model -> mel -> lib_state -> lib_state * res (list (string * float));
  decode : model -> mel -> DecodingOptions -> lib_state -> lib_state * res decoding_result;
  (* model.transcribe(path, language=..., word_timestamps=...) *)
  transcribe : model -> string -> string -> bool -> lib_state -> lib_state * res TranscriptionResult
}.

(** The calls into the library, as they are logged. *)
Inductive lib_call : Type :=
| CallLoadModel (name : string)
| CallLoadAudio (path : string)
| CallPadOrTrim
| CallLogMelSpectrogram (n_mels : Z)
| CallMelTo
| CallDetectLanguage
| CallDecode (options : DecodingOptions)
| CallTranscribe (path : string) (lang : string) (word_timestamps : bool).

Section Program.

Context {W : Whisper}.

(** ** The world and the monad of the program *)

Record world : Type := {
  fs : tree;                    (* the file system *)
  out : list string;            (* what was printed, one entry per print *)
  lib : lib_state;              (* the state of the external library *)
  calls : list lib_call         (* the calls made into the library *)
}.

Definition M (A : Type) : Type := world -> world * res A.

Definition ret {A : Type} (a : A) : M A := fun w => (w, Ok a).

Definition raise {A : Type} (e : exn) : M A := fun w => (w, Raise e).

Definition bind {A B : Type} (c : M A) (k : A -> M B) : M B :=
  fun w =>
    match c w with
    | (w', Ok a) => k a w'
    | (w', Raise e) => (w', Raise e)
    end.

Definition lift {A : Type} (r : res A) : M A := fun w => (w, r).

Notation "'let*' x ':=' c 'in' k" := (bind c (fun x => k))
  (at level 10, x name, c at level 200, k at level 200).
Notation "c ';;;' k" := (bind c (fun _ => k))
  (at level 100, k at level 200, right associativity).

Definition print (line : string) : M unit :=
  fun w => ({| fs := fs w; out := out w ++ [line]; lib := lib w; calls := calls w |}, Ok tt).

(** A logged call into the library. *)
Definition call {A : Type} (c : lib_call) (op : lib_state -> lib_state * res A) : M A :=
  fun w =>
    let '(l, r) := op (lib w) in
    ({| fs := fs w; out := out w; lib := l; calls := calls w ++ [c] |}, r).

(** [time.time()]. *)
Definition now : M float :=
  fun w =>
    let '(l, t) := time_time (lib w) in
    ({| fs := fs w; out := out w; lib := l; calls := calls w |}, Ok t).

(** [os.path.exists(p)]: [os.stat] succeeds. *)
Definition os_path_exists (p : string) : M bool :=
  fun w => (w, Ok (bool_decide (is_Some (fs w !! p)))).

(** [os.listdir(d)]: the names of the entries, in listing order. *)
Definition os_listdir (d : string) : M (list string) :=
  fun w =>
    match os_stat (fs w) d with
    | Ok (Dir entries) => (w, Ok (List.map fst entries))
    | Ok (File _) => (w, Raise NotADirectoryError)
    | Raise e => (w, Raise e)
    end.

(** [os.mkdir(p)]. *)
Definition os_mkdir (p : string) : M unit :=
  fun w =>
    match mkdir_place (fs w) p with
    | Ok k =>
        ({| fs := put k (Dir []) (fs w); out := out w; lib := lib w; calls := calls w |},
         Ok tt)
    | Raise e => (w, Raise e)
    end.

(** [os.makedirs(name)] with [exist_ok=False]: the missing directories
    above [name] are made first, one that appears meanwhile is accepted;
    [fuel] bounds the recursion on the ever shorter head. *)
Fixpoint makedirs_from (fuel : nat) (name : string) : M unit :=
  let head0 := os_path_dirname name in
  let tail0 := os_path_basename name in
  let head := if String.eqb tail0 "" then os_path_dirname head0 else head0 in
  let tail := if String.eqb tail0 "" then os_path_basename head0 else tail0 in
  if negb (String.eqb head "") && negb (String.eqb tail "") then
    let* present := os_path_exists head in
    if negb present then
      (match fuel with
       | S fuel' =>
           fun w =>
             match makedirs_from fuel' head w with
             | (w', Raise FileExistsError) => (w', Ok tt)
             | r => r
             end
       | O => ret tt
       end) ;;;
      if String.eqb tail "." then ret tt else os_mkdir name
    else os_mkdir name
  else os_mkdir name.

Definition os_makedirs (name : string) : M unit :=
  makedirs_from (String.length name) name.

(** [with open(p, 'w', encoding='utf-8') as f: f.write(s)]: the file is
    created or replaced; a string is its UTF-8 bytes. *)
Definition write_text (p : string) (s : string) : M unit :=
  fun w =>
    match open_for_writing (fs w) p with
    | Ok k =>
        ({| fs := put k (File s) (fs w); out := out w; lib := lib w; calls := calls w |},
         Ok tt)
    | Raise e => (w, Raise e)
    end.

(** ** transcribe_audio *)

(** [probs.get(k)]. *)
Fixpoint probs_get (probs : list (string * float)) (k : string) : option float :=
  match probs with
  | [] => None
  | (k', v) :: rest => if String.eqb k' k then Some v else probs_get rest k
  end.

(** The loop of [max(probs, key=probs.get)]: a later key replaces the
    current one when its value is greater. *)
Fixpoint max_by_value (best : string) (best_v : float) (rest : list (string * float))
  : string :=
  match rest with
  | [] => best
  | (k, v) :: rest' =>
      if ltb best_v v then max_by_value k v rest' else max_by_value best best_v rest'
  end.

Definition max_key (probs : list (string * float)) : res string :=
  match probs with
  | [] => Raise ValueError
  | (k, v) :: rest => Ok (max_by_value k v rest)
  end.

Definition transcribe_audio (audio_path : string) (model_name : string)
    (verbose : bool) (word_timestamps : bool) : M TranscriptionResult :=
  let* start_time := now in
  (if verbose then print ("모델 '" +:+ model_name +:+ "' 로딩 중...") else ret tt) ;;;
  let* mdl := call (CallLoadModel model_name) (load_model model_name) in
  (if verbose then
     let* t := now in
     print ("모델 로딩 완료: " +:+ format_float_2f (sub t start_time) +:+ "초") ;;;
     print ("'" +:+ audio_path +:+ "' 파일 트랜스크립션 시작...")
   else ret tt) ;;;
  let* a := call (CallLoadAudio audio_path) (load_audio audio_path) in
  let* a := call CallPadOrTrim (pad_or_trim a) in
  let* ml := call (CallLogMelSpectrogram (model_n_mels mdl))
               (log_mel_spectrogram a (model_n_mels mdl)) in
  let* ml := call CallMelTo (mel_to ml (model_device mdl)) in
  let* probs := call CallDetectLanguage (detect_language mdl ml) in
  let* detected_lang := lift (max_key probs) in
  (if verbose then
     let* p := lift (match probs_get probs detected_lang with
                     | Some p => Ok p
                     | None => Raise KeyError
                     end) in
     print ("감지된 언어: " +:+ detected_lang +:+ " (확률: " +:+ format_float_2f p +:+ ")")
   else ret tt) ;;;
  let options := {| opt_language := detected_lang; opt_fp16 := false |} in
  let* _discarded := call (CallDecode options) (decode mdl ml options) in
  let* full_result := call (CallTranscribe audio_path detected_lang true)
                        (transcribe mdl audio_path detected_lang true) in
  (if verbose then
     let* t := now in
     print ("트랜스크립션 완료: " +:+ format_float_2f (sub t start_time) +:+ "초")
   else ret tt) ;;;
  ret full_result.

(** [transcribe_audio] without the diagnostic decoding of lines 44-46. *)
Definition transcribe_audio_without_decode (audio_path : string) (model_name : string)
    (verbose : bool) (word_timestamps : bool) : M TranscriptionResult :=
  let* start_time := now in
  (if verbose then print ("모델 '" +:+ model_name +:+ "' 로딩 중...") else ret tt) ;;;
  let* mdl := call (CallLoadModel model_name) (load_model model_name) in
  (if verbose then
     let* t := now in
     print ("모델 로딩 완료: " +:+ format_float_2f (sub t start_time) +:+ "초") ;;;
     print ("'" +:+ audio_path +:+ "' 파일 트랜스크립션 시작...")
   else ret tt) ;;;
  let* a := call (CallLoadAudio audio_path) (load_audio audio_path) in
  let* a := call CallPadOrTrim (pad_or_trim a) in
  let* ml := call (CallLogMelSpectrogram (model_n_mels mdl))
               (log_mel_spectrogram a (model_n_mels mdl)) in
  let* ml := call CallMelTo (mel_to ml (model_device mdl)) in
  let* probs := call CallDetectLanguage (detect_language mdl ml) in
  let* detected_lang := lift (max_key probs) in
  (if verbose then
     let* p := lift (match probs_get probs detected_lang with
                     | Some p => Ok p
                     | None => Raise KeyError
                     end) in
     print ("감지된 언어: " +:+ detected_lang +:+ " (확률: " +:+ format_float_2f p +:+ ")")
   else ret tt) ;;;
  let* full_result := call (CallTranscribe audio_path detected_lang true)
                        (transcribe mdl audio_path detected_lang true) in
  (if verbose then
     let* t := now in
     print ("트랜스크립션 완료: " +:+ format_float_2f (sub t start_time) +:+ "초")
   else ret tt) ;;;
  ret full_result.

(** ** print_word_timestamps *)

Definition newline : string := String (ascii_of_nat 10) EmptyString.

(** A [for] loop over a list. *)
Fixpoint for_each {A : Type} (body : A -> M unit) (l : list A) : M unit :=
  match l with
  | [] => ret tt
  | x :: rest => body x ;;; for_each body rest
  end.

Definition words_of (seg : Segment) : list Word :=
  match seg_words seg with
  | Some ws => ws
  | None => []
  end.

(** The body of the loop over the segments. *)
Definition print_segment (seg : Segment) : M unit :=
  let seg_text := seg_text seg in
  let words := words_of seg in
  match words with
  | [] => ret tt
  | first :: _ =>
      let* start_time := lift (format_time (word_start first)) in
      let* end_time := lift (format_time (word_end (List.last words first))) in
      print (start_time +:+ " --> " +:+ end_time +:+ newline +:+ " [segment]: " +:+ seg_text)
  end.

Definition print_word_timestamps (full_result : TranscriptionResult) : M unit :=
  let segments := match segments full_result with
                  | Some segs => segs
                  | None => []
                  end in
  for_each print_segment segments.

(** ** save_transcription *)

Definition result_dir : string := "result".

Definition save_transcription (result : TranscriptionResult)
    (output_file : option string) (audio_path : option string) : M (option string) :=
  let* present := os_path_exists result_dir in
  (if negb present then os_makedirs result_dir else ret tt) ;;;
  let output_file :=
    match output_file, audio_path with
    | None, Some audio_path =>
        let base_name := os_path_basename audio_path in
        let name_without_ext := fst (os_path_splitext base_name) in
        Some (result_dir +:+ "/" +:+ name_without_ext +:+ ".txt")
    | _, _ => output_file
    end in
  (match output_file with
   | Some f =>
       if negb (String.eqb f "") then
         write_text f (text result) ;;;
         print ("트랜스크립션 결과가 '" +:+ f +:+ "'에 저장되었습니다.")
       else ret tt
   | None => ret tt
   end) ;;;
  ret output_file.

(** ** main *)

Inductive model_choice : Type := tiny | base | small | medium | large | turbo.

Definition model_choice_name (m : model_choice) : string :=
  match m with
  | tiny => "tiny"
  | base => "base"
  | small => "small"
  | medium => "medium"
  | large => "large"
  | turbo => "turbo"
  end.

(** The parsed command line. *)
Record Args : Type := {
  audio_file : option string;     (* positional, default None *)
  folder : option string;         (* --folder / -f, default None *)
  model_arg : model_choice;       (* --model / -m, default medium *)
  output : option string;         (* --output / -o *)
  quiet : bool                    (* --quiet / -q *)
}.

Definition audio_suffixes : list string := [".wav"; ".mp3"; ".flac"; ".m4a"].

(** [f.lower().endswith(('.wav', '.mp3', '.flac', '.m4a'))] *)
Definition is_audio_name (f : string) : bool :=
  existsb (endswith (lower f)) audio_suffixes.

(** [args.folder if args.folder else "./target"] *)
Definition target_dir_of (args : Args) : string :=
  match folder args with
  | Some f => if String.eqb f "" then "./target" else f
  | None => "./target"
  end.

(** Lines 153-165 of [main]: what runs once the audio file is chosen. *)
Definition transcribe_and_report (args : Args) (audio_file : string) : M unit :=
  let* result := transcribe_audio audio_file (model_choice_name (model_arg args))
                   (negb (quiet args)) true in
  let* _saved := save_transcription result (output args) (Some audio_file) in
  print (newline +:+ "[단어 단위 타임스탬프 정보]") ;;;
  print_word_timestamps result ;;;
  print (newline +:+ "트랜스크립션 결과:") ;;;
  print (text result).

Definition main (args : Args) : M unit :=
  let target_dir := target_dir_of args in
  match audio_file args with
  | None =>
      let* present := os_path_exists target_dir in
      if negb present then
        print ("오류: '" +:+ target_dir +:+ "' 폴더를 찾을 수 없습니다.")
      else
        let* entries := os_listdir target_dir in
        let audio_files := List.filter is_audio_name entries in
        match audio_files with
        | [] => print ("오류: '" +:+ target_dir +:+ "' 폴더에 음원 파일이 없습니다.")
        | first :: _ =>
            let audio_file := os_path_join target_dir first in
            print ("자동 선택된 오디오 파일: " +:+ audio_file) ;;;
            transcribe_and_report args audio_file
        end
  | Some audio_file =>
      let* present := os_path_exists audio_file in
      if negb present then
        print ("오류: '" +:+ audio_file +:+ "' 파일을 찾을 수 없습니다")
      else transcribe_and_report args audio_file
  end.

End Program.

Arguments world : clear implicits.
Arguments M : clear implicits.

(** ** A small library instance, to run the program on concrete inputs

    The state is a clock in seconds that each reading advances; the
    result of a transcription is fixed. *)

Module Demo.

Definition hi : Segment :=
  {| seg_start := of_Z 0; seg_end := of_Z 9; seg_text := "hi";
     seg_words := Some [ {| word_start := of_Z 1; word_end := of_decimal 12 1; word_text := "h" |};
                         {| word_start := of_decimal 12 1; word_end := of_decimal 15 1; word_text := "i" |} ] |}.

Definition silence : Segment :=
  {| seg_start := of_Z 9; seg_end := of_Z 12; seg_text := "..."; seg_words := Some [] |}.

Definition hello : TranscriptionResult :=
  {| text := "hello world"; segments := Some [hi; silence]; language := "en" |}.

Definition whisper : Whisper :=
  {| lib_state := Z;
     model := string;
     audio := string;
     mel := unit;
     device := unit;
     decoding_result := unit;
     time_time := fun l => (l + 1, of_Z l);
     load_model := fun name l => (l, Ok name);
     load_audio := fun path l => (l, Ok path);
     pad_or_trim := fun a l => (l, Ok a);
     model_n_mels := fun _ => 80;
     model_device := fun _ => tt;
     log_mel_spectrogram := fun _ _ l => (l, Ok tt);
     mel_to := fun m _ l => (l, Ok m);
     detect_language := fun _ _ l =>
       (l, Ok [("ko", of_decimal 1 1); ("en", of_decimal 8 1); ("ja", of_decimal 1 1)]);
     decode := fun _ _ _ l => (l, Ok tt);
     transcribe := fun _ _ _ _ l => (l, Ok hello) |}.

Definition start (files : tree) : world whisper :=
  @Build_world whisper files [] 0 [].

Definition args0 : Args :=
  {| audio_file := None; folder := None; model_arg := medium; output := None; quiet := false |}.

Definition files0 : tree :=
  [("target", Dir [("notes.txt", File ""); ("Demo.WAV", File ""); ("b.mp3", File "")])].

Definition args_of (path : string) : Args :=
  {| audio_file := Some path; folder := None; model_arg := medium; output := None;
     quiet := false |}.

(** The same library with another [whisper.decode]. *)
Definition with_decode (d : Z -> Z * res unit) : Whisper :=
  {| lib_state := Z;
     model := string;
     audio := string;
     mel := unit;
     device := unit;
     decoding_result := unit;
     time_time := fun l => (l + 1, of_Z l);
     load_model := fun name l => (l, Ok name);
     load_audio := fun path l => (l, Ok path);
     pad_or_trim := fun a l => (l, Ok a);
     model_n_mels := fun _ => 80;
     model_device := fun _ => tt;
     log_mel_spectrogram := fun _ _ l => (l, Ok tt);
     mel_to := fun m _ l => (l, Ok m);
     detect_language := fun _ _ l =>
       (l, Ok [("ko", of_decimal 1 1); ("en", of_decimal 8 1); ("ja", of_decimal 1 1)]);
     decode := fun _ _ _ l => d l;
     transcribe := fun _ _ _ _ l => (l, Ok hello) |}.

(** A decoding that takes five seconds. *)
Definition slow : Whisper := with_decode (fun l => (l + 5, Ok tt)).

(** A decoding that fails. *)
Definition failing : Whisper := with_decode (fun l => (l, Raise (LibraryError "decode"))).

(** A library whose transcription depends on what was decoded before:
    the state counts the decodings, and a transcription after one is
    empty. *)
Definition stateful : Whisper :=
  {| lib_state := Z;
     model := string;
     audio := string;
     mel := unit;
     device := unit;
     decoding_result := unit;
     time_time := fun l => (l, of_Z 0);
     load_model := fun name l => (l, Ok name);
     load_audio := fun path l => (l, Ok path);
     pad_or_trim := fun a l => (l, Ok a);
     model_n_mels := fun _ => 80;
     model_device := fun _ => tt;
     log_mel_spectrogram := fun _ _ l => (l, Ok tt);
     mel_to := fun m _ l => (l, Ok m);
     detect_language := fun _ _ l => (l, Ok [("en", of_decimal 8 1)]);
     decode := fun _ _ _ l => (l + 1, Ok tt);
     transcribe := fun _ _ _ _ l =>
       (l, Ok (if l =? 0 then hello
               else {| text := ""; segments := Some []; language := "en" |})) |}.

(** The first world of a run with a library whose state is a number. *)
Definition start_in (W : Whisper) (l : @lib_state W) (files : tree) : world W :=
  @Build_world W files [] l [].

End Demo.

(** ** Specification-side vocabulary *)

(** The world after printing [lines]. *)
Definition emit {W : Whisper} (w : world W) (lines : list string) : world W :=
  {| fs := fs w; out := out w ++ lines; lib := lib w; calls := calls w |}.

(** What a run shows apart from the log of library calls: files, output,
    library state and the returned value or exception. *)
Definition observable {W : Whisper} {A : Type} (r : world W * res A)
  : tree * list string * lib_state * res A :=
  (fs (fst r), out (fst r), lib (fst r), snd r).

Definition returns (r : res string) : bool :=
  match r with
  | Ok _ => true
  | Raise _ => false
  end.

Definition formatted (x : float) : string :=
  match format_time x with
  | Ok s => s
  | Raise _ => ""
  end.

(** [format_time] returns on the two time stamps that a segment shows. *)
Definition segment_times_format (seg : Segment) : bool :=
  match words_of seg with
  | [] => true
  | first :: _ =>
      returns (format_time (word_start first)) &&
      returns (format_time (word_end (List.last (words_of seg) first)))
  end.

(** The line of a segment: none without words, else the times of the
    first and of the last word and the text. *)
Definition segment_lines (seg : Segment) : list string :=
  match words_of seg with
  | [] => []
  | first :: _ =>
      [formatted (word_start first) +:+ " --> " +:+
       formatted (word_end (List.last (words_of seg) first)) +:+
       newline +:+ " [segment]: " +:+ seg_text seg]
  end.

Definition segments_of (r : TranscriptionResult) : list Segment :=
  match segments r with
  | Some segs => segs
  | None => []
  end.

Definition with_folder (f : option string) (args : Args) : Args :=
  {| audio_file := audio_file args; folder := f; model_arg := model_arg args;
     output := output args; quiet := quiet args |}.

(** The world with other files. *)
Definition set_fs {W : Whisper} (w : world W) (files : tree) : world W :=
  {| fs := files; out := out w; lib := lib w; calls := calls w |}.

(** The files once the result directory is there. *)
Definition ensure_result_dir (files : tree) : tree :=
  match files !! "result" with
  | Some _ => files
  | None => <["result" := Dir []]> files
  end.

Definition is_file (n : option node) : bool :=
  match n with
  | Some (File _) => true
  | _ => false
  end.

(** A file can be created or replaced at [p]: the opening for writing
    succeeds. *)
Definition can_write (files : tree) (p : string) : bool :=
  match open_for_writing files p with
  | Ok _ => true
  | Raise _ => false
  end.

(** The output path derived from the audio path. *)
Definition derived_output (audio_path : string) : string :=
  "result" +:+ "/" +:+ fst (os_path_splitext (os_path_basename audio_path)) +:+ ".txt".

Definition saved_message (f : string) : string :=
  "트랜스크립션 결과가 '" +:+ f +:+ "'에 저장되었습니다.".

Fixpoint contains (c : ascii) (s : string) : bool :=
  match s with
  | EmptyString => false
  | String a r => Ascii.eqb a c || contains c r
  end.

(** The name of a file in a directory: not empty, free of slashes, and
    neither [.] nor [..]. *)
Definition plain_name (s : string) : bool :=
  negb (String.eqb s "") && negb (contains "/" s) &&
  negb (String.eqb s ".") && negb (String.eqb s "..").

(** The value of a decimal digit. *)
Definition digit_of (c : ascii) : option Z :=
  let n := nat_of_ascii c in
  if ((48 <=? n) && (n <=? 57))%nat then Some (Z.of_nat n - 48) else None.

(** The number that a string of decimal digits denotes, read from the
    left with [acc] for the digits already read; nothing when another
    character occurs. *)
Fixpoint decimal_from (acc : Z) (s : string) : option Z :=
  match s with
  | EmptyString => Some acc
  | String c r =>
      match digit_of c with
      | Some d => decimal_from (10 * acc + d) r
      | None => None
      end
  end.

Definition decimal_value (s : string) : option Z :=
  match s with
  | EmptyString => None
  | _ => decimal_from 0 s
  end.

(** The text before the first [c]. *)
Fixpoint field_before (c : ascii) (s : string) : string :=
  match s with
  | EmptyString => EmptyString
  | String a r => if Ascii.eqb a c then EmptyString else String a (field_before c r)
  end.

(** The hours of a formatted time: what precedes the first colon. *)
Definition hours_field (s : string) : string := field_before ":" s.

(** A call to [model.transcribe] asks for word time stamps. *)
Definition asks_word_timestamps (c : lib_call) : Prop :=
  match c with
  | CallTranscribe _ _ flag => flag = true
  | _ => True
  end.

(** ** Values of binary64 numbers

    The value of a finite float is a dyadic rational.  The rounding of
    the operations is studied on non-negative numbers, which is what a
    time stamp is. *)

(** The rational [m * 2^e]. *)
Definition F2Q (m e : Z) : Q := (inject_Z m * 2 ^ e)%Q.

(** The value of a float; zero on what is not finite. *)
Definition SF2Q (x : float) : Q :=
  match x with
  | S754_finite s m e => F2Q (cond_Zopp s (Z.pos m)) e
  | _ => 0%Q
  end.

(** [m * 2^e] is zero or in canonical form: the exponent is the least one,
    or the mantissa has 53 bits. *)
Definition canonical (m e : Z) : Prop :=
  -1074 <= e /\ 0 <= m < 2 ^ 53 /\ (e = -1074 \/ 2 ^ 52 <= m).

(** [m * 2^e] fits a mantissa of 53 bits at an exponent of the format. *)
Definition representable (m e : Z) : Prop := 0 <= m < 2 ^ 53 /\ -1074 <= e.

(** A non-negative finite float in canonical form. *)
Definition fin_nonneg (x : float) : Prop :=
  x = S754_zero false \/
  exists m e, x = S754_finite false m e /\ canonical (Z.pos m) e /\ e <= 971.

(** A rational that some non-negative finite binary64 number has. *)
Definition float_value (v : Q) : Prop :=
  exists m e, representable m e /\ e <= 971 /\ (v == F2Q m e)%Q.

(** The integer that [int(x)] returns on a finite [x]. *)
Definition Ztrunc (x : float) : Z :=
  match trunc x with
  | Some z => z
  | None => 0
  end.

(** [y] is the float of the integer [K >= 2]. *)
Definition divisor (my : positive) (ey : Z) (K : Z) : Prop :=
  canonical (Z.pos my) ey /\ ey <= 971 /\ (F2Q (Z.pos my) ey == inject_Z K)%Q /\ 2 <= K.

(** The location tells that nothing was cut. *)
Definition is_exact (l : location) : bool :=
  match l with loc_Exact => true | _ => false end.

(** After [k] shifts, the record holds the quotient of [m0] by [2^k], and
    its two bits are clear when [m0] was exact and no bit was lost. *)
Definition shr_inv (m0 : Z) (exact0 : bool) (k : Z) (mrs : shr_record) : Prop :=
  shr_m mrs = m0 / 2 ^ k /\
  (exact0 = true -> m0 mod 2 ^ k = 0 -> shr_r mrs = false /\ shr_s mrs = false).

(** The floats of the integer constants of [format_time]: [of_Z 1000],
    [of_Z 3600] and [of_Z 60], evaluated. *)
Definition k1000 : float := S754_finite false 8796093022208000 (-43).
Definition k3600 : float := S754_finite false 7916483719987200 (-41).
Definition k60 : float := S754_finite false 8444249301319680 (-47).

(** The integer that [format_time] prints as hours: [int(x // 3600)]. *)
Definition hours_of (x : float) : Z := Ztrunc (fst (float_div_mod x (of_Z 3600))).


(** * Properties *)

(** ** format_time on the documented inputs *)

(** C1: [format_time] gives the zero-padded HH:MM:SS.mmm string of the
    three documented inputs, 0.0, 3661.25 and 59.999; the milliseconds are
    cut, not rounded: 59.9996 still shows 999 milliseconds. *)
Theorem format_time_examples :
  format_time (of_Z 0) = Ok "00:00:00.000" /\
  format_time (of_decimal 366125 2) = Ok "01:01:01.250" /\
  format_time (of_decimal 59999 3) = Ok "00:00:59.999" /\
  format_time (of_decimal 599996 4) = Ok "00:00:59.999".
Proof. repeat split; vm_compute; reflexivity. Qed.

(** ** Rounding of binary64 operations

    What follows bounds the result of an operation on non-negative
    numbers by the binary64 numbers that bound its exact value: rounding
    to nearest is monotone and keeps a number of the format as it is. *)

Lemma pow2_pos (e : Z) : (0 < 2 ^ e)%Q.
Proof. apply Qpower_0_lt. reflexivity. Qed.

Lemma pow2_add (a b : Z) : (2 ^ (a + b) == 2 ^ a * 2 ^ b)%Q.
Proof. apply Qpower_plus. discriminate. Qed.

Lemma pow2_inject (k : Z) : 0 <= k -> (inject_Z (2 ^ k) == 2 ^ k)%Q.
Proof. intros H. now rewrite Zpower_Qpower. Qed.

Lemma pow2_le (a b : Z) : a <= b -> (2 ^ a <= 2 ^ b)%Q.
Proof.
  intros H. replace b with (a + (b - a)) by lia. rewrite pow2_add.
  assert (1 <= 2 ^ (b - a))%Q as H1.
  { rewrite <- pow2_inject by lia. change 1%Q with (inject_Z 1).
    rewrite <- Zle_Qle. pose proof (Z.pow_pos_nonneg 2 (b - a)). lia. }
  pose proof (pow2_pos a). nra.
Qed.

Lemma F2Q_shift (m e k : Z) : 0 <= k -> (F2Q (m * 2 ^ k) e == F2Q m (e + k))%Q.
Proof.
  intros H. unfold F2Q. rewrite inject_Z_mult, pow2_inject, pow2_add by assumption. ring.
Qed.

Lemma F2Q_le (m1 m2 e : Z) : m1 <= m2 <-> (F2Q m1 e <= F2Q m2 e)%Q.
Proof.
  unfold F2Q. pose proof (pow2_pos e) as Hp. rewrite Zle_Qle. split; intros H; nra.
Qed.

Lemma F2Q_lt (m1 m2 e : Z) : m1 < m2 <-> (F2Q m1 e < F2Q m2 e)%Q.
Proof.
  unfold F2Q. pose proof (pow2_pos e) as Hp. rewrite Zlt_Qlt. split; intros H; nra.
Qed.

Lemma F2Q_pow (k e : Z) : 0 <= k -> (F2Q (2 ^ k) e == 2 ^ (k + e))%Q.
Proof. intros H. unfold F2Q. now rewrite pow2_inject, pow2_add. Qed.

Lemma F2Q_zero (e : Z) : (F2Q 0 e == 0)%Q.
Proof. unfold F2Q. change (inject_Z 0) with 0%Q. ring. Qed.

Lemma F2Q_nonneg (m e : Z) : 0 <= m -> (0 <= F2Q m e)%Q.
Proof.
  intros H. unfold F2Q. pose proof (pow2_pos e). rewrite Zle_Qle in H.
  change (inject_Z 0) with 0%Q in H. nra.
Qed.

(** The number of binary digits of a mantissa. *)
Lemma digits2_pos_bounds (p : positive) :
  2 ^ (Z.pos (digits2_pos p) - 1) <= Z.pos p < 2 ^ Z.pos (digits2_pos p).
Proof.
  induction p as [p IH|p IH|]; cbn [digits2_pos].
  - rewrite Pos2Z.inj_succ.
    replace (Z.succ (Z.pos (digits2_pos p)) - 1) with (Z.succ (Z.pos (digits2_pos p) - 1)) by lia.
    rewrite !Z.pow_succ_r by lia. lia.
  - rewrite Pos2Z.inj_succ.
    replace (Z.succ (Z.pos (digits2_pos p)) - 1) with (Z.succ (Z.pos (digits2_pos p) - 1)) by lia.
    rewrite !Z.pow_succ_r by lia. lia.
  - simpl. lia.
Qed.

Lemma Zdigits2_bounds (m : Z) :
  0 < m -> 0 < Zdigits2 m /\ 2 ^ (Zdigits2 m - 1) <= m < 2 ^ Zdigits2 m.
Proof.
  destruct m as [|p|p]; try lia. intros _. simpl. split; [lia|].
  apply digits2_pos_bounds.
Qed.

Lemma Zdigits2_le (m k : Z) : 0 < m -> m < 2 ^ k -> Zdigits2 m <= k.
Proof.
  intros Hm Hk. destruct (Zdigits2_bounds m Hm) as (Hd & Hlo & _).
  destruct (Z.le_gt_cases (Zdigits2 m) k) as [|Hgt]; [assumption|].
  assert (2 ^ k <= 2 ^ (Zdigits2 m - 1)) by (apply Z.pow_le_mono_r; lia). lia.
Qed.

Lemma Zdigits2_ge (m k : Z) : 0 <= k -> 2 ^ k <= m -> k + 1 <= Zdigits2 m.
Proof.
  intros Hk Hm. assert (0 < m) as Hpos by (pose proof (Z.pow_pos_nonneg 2 k); lia).
  destruct (Zdigits2_bounds m Hpos) as (Hd & _ & Hhi).
  destruct (Z.le_gt_cases (k + 1) (Zdigits2 m)) as [|Hgt]; [assumption|].
  assert (2 ^ Zdigits2 m <= 2 ^ k) by (apply Z.pow_le_mono_r; lia). lia.
Qed.

(** ** Shifting right *)

(** One shift keeps the invariant. *)
Lemma shr_1_inv (m0 : Z) (exact0 : bool) (k : Z) (mrs : shr_record) :
  0 <= m0 -> 0 <= k -> shr_inv m0 exact0 k mrs -> shr_inv m0 exact0 (k + 1) (shr_1 mrs).
Proof.
  intros Hm0 Hk [Hm Hex]. destruct mrs as [m r s]. cbn [shr_m shr_r shr_s] in *.
  assert (0 < 2 ^ k) as Hp by (apply Z.pow_pos_nonneg; lia).
  assert (2 ^ (k + 1) = 2 ^ k * 2) as Hpk by (rewrite Z.pow_add_r by lia; lia).
  assert (m0 / 2 ^ (k + 1) = m / 2) as Hdiv.
  { rewrite Hpk, <- Z.div_div by lia. now rewrite Hm. }
  assert (0 <= m) as Hmnn by (rewrite Hm; apply Z.div_pos; lia).
  assert (exact0 = true -> m0 mod 2 ^ (k + 1) = 0 -> m mod 2 = 0 /\ r = false /\ s = false) as Hnext.
  { intros He Hmod. rewrite Hpk in Hmod.
    rewrite Z.rem_mul_r in Hmod by lia.
    pose proof (Z.mod_pos_bound m0 (2 ^ k) Hp) as B1.
    pose proof (Z.mod_pos_bound (m0 / 2 ^ k) 2 ltac:(lia)) as B2.
    assert (m0 mod 2 ^ k = 0) as H0 by nia.
    destruct (Hex He H0) as [-> ->]. rewrite Hm. split; [nia|auto]. }
  unfold shr_inv, shr_1.
  destruct m as [|[p|p|]|p]; cbn [shr_m shr_r shr_s]; try lia.
  - rewrite Hdiv. split; [reflexivity|]. intros He Hmod.
    destruct (Hnext He Hmod) as (_ & -> & ->). auto.
  - rewrite Hdiv. split; [rewrite Pos2Z.inj_xI; rewrite Z.mul_comm, Z.div_add_l by lia; reflexivity|].
    intros He Hmod. destruct (Hnext He Hmod) as (Hodd & _). rewrite Pos2Z.inj_xI in Hodd.
    rewrite Z.add_comm, Z.mul_comm, Z.mod_add in Hodd by lia. discriminate.
  - rewrite Hdiv. split; [rewrite Pos2Z.inj_xO; rewrite Z.mul_comm, Z.div_mul by lia; reflexivity|].
    intros He Hmod. destruct (Hnext He Hmod) as (_ & -> & ->). auto.
  - rewrite Hdiv. split; [reflexivity|].
    intros He Hmod. destruct (Hnext He Hmod) as (Hodd & _). discriminate.
Qed.

Lemma iter_shr_inv (m0 : Z) (exact0 : bool) (p : positive) :
  0 <= m0 ->
  forall k mrs, 0 <= k -> shr_inv m0 exact0 k mrs ->
    shr_inv m0 exact0 (k + Z.pos p) (SpecFloat.iter_pos shr_1 p mrs).
Proof.
  intros Hm0. induction p as [p IH|p IH|]; intros k mrs Hk H; cbn [SpecFloat.iter_pos].
  - replace (k + Z.pos p~1) with (k + 1 + Z.pos p + Z.pos p) by lia.
    apply IH; [lia|]. apply IH; [lia|]. now apply shr_1_inv.
  - replace (k + Z.pos p~0) with (k + Z.pos p + Z.pos p) by lia.
    apply IH; [lia|]. now apply IH.
  - now apply shr_1_inv.
Qed.

(** Shifting right by [n] divides by [2^n]; the location stays exact when
    the value was exact and no bit is lost. *)
Lemma shr_spec (m e n : Z) (l : location) :
  0 <= m -> 0 < n ->
  exists mrs, shr (shr_record_of_loc m l) e n = (mrs, e + n) /\
              shr_m mrs = m / 2 ^ n /\
              (l = loc_Exact -> m mod 2 ^ n = 0 -> loc_of_shr_record mrs = loc_Exact).
Proof.
  intros Hm Hn. destruct n as [|p|p]; try lia.
  unfold shr. eexists. split; [reflexivity|].
  assert (shr_inv m (is_exact l) 0 (shr_record_of_loc m l)) as H0.
  { split.
    - destruct l as [|[]]; simpl; now rewrite Z.div_1_r.
    - destruct l as [|[]]; simpl; intros; try discriminate; auto. }
  pose proof (iter_shr_inv m (is_exact l) p Hm 0 _ ltac:(lia) H0) as [H1 H2].
  rewrite Z.add_0_l in H1, H2. split; [exact H1|].
  intros -> Hmod. destruct (H2 eq_refl Hmod) as [Hr Hs].
  destruct (SpecFloat.iter_pos shr_1 p _) as [m' r s]. simpl in *. now subst.
Qed.

(** ** Truncation to the format *)

Lemma fexp_eq (e : Z) : fexp prec emax e = Z.max (e - 53) (-1074).
Proof. reflexivity. Qed.

Lemma canonical_representable (m e : Z) : canonical m e -> representable m e.
Proof. unfold canonical, representable. tauto. Qed.

Lemma F2Q_align (m e e0 : Z) : e0 <= e -> (F2Q m e == F2Q (m * 2 ^ (e - e0)) e0)%Q.
Proof.
  intros H. rewrite F2Q_shift by lia. now replace (e0 + (e - e0)) with e by lia.
Qed.

Lemma F2Q_representable_lt (m e : Z) : representable m e -> (F2Q m e < 2 ^ (53 + e))%Q.
Proof.
  intros [[_ H] _]. rewrite <- F2Q_pow by lia. now apply F2Q_lt.
Qed.

(** A number of the format below the successor of [m * 2^e] is not above
    [m * 2^e], when [m * 2^e] is on a grid that the format shares or has
    a full mantissa. *)
Lemma grid_le (mB eB m e : Z) :
  representable mB eB -> (eB < e -> 2 ^ 52 <= m) ->
  (F2Q mB eB < F2Q (m + 1) e)%Q -> (F2Q mB eB <= F2Q m e)%Q.
Proof.
  intros HB Hbig Hlt. destruct (Z.le_gt_cases e eB) as [Hle|Hgt].
  - rewrite (F2Q_align mB eB e) in * by assumption.
    apply F2Q_le. apply F2Q_lt in Hlt. lia.
  - specialize (Hbig Hgt). pose proof (F2Q_representable_lt _ _ HB) as H1.
    assert (2 ^ (53 + eB) <= 2 ^ (52 + e))%Q as H2 by (apply pow2_le; lia).
    rewrite <- (F2Q_pow 52 e) in H2 by lia.
    assert (F2Q (2 ^ 52) e <= F2Q m e)%Q as H3 by now apply F2Q_le.
    lra.
Qed.

(** A number of the format above [m * 2^e] is not below its successor. *)
Lemma grid_ge (mX eX m e : Z) :
  representable mX eX -> (eX < e -> 2 ^ 52 <= m) ->
  (F2Q m e < F2Q mX eX)%Q -> (F2Q (m + 1) e <= F2Q mX eX)%Q.
Proof.
  intros HX Hbig Hlt. destruct (Z.le_gt_cases e eX) as [Hle|Hgt].
  - rewrite (F2Q_align mX eX e) in * by assumption.
    apply F2Q_le. apply F2Q_lt in Hlt. lia.
  - specialize (Hbig Hgt). pose proof (F2Q_representable_lt _ _ HX) as H1.
    assert (2 ^ (53 + eX) <= 2 ^ (52 + e))%Q as H2 by (apply pow2_le; lia).
    rewrite <- (F2Q_pow 52 e) in H2 by lia.
    assert (F2Q (2 ^ 52) e <= F2Q m e)%Q as H3 by now apply F2Q_le.
    lra.
Qed.

Lemma canonical_big (m e eB : Z) : canonical m e -> -1074 <= eB -> eB < e -> 2 ^ 52 <= m.
Proof. unfold canonical. lia. Qed.

(** The first shift of [binary_round_aux]: the mantissa is cut to the
    format, the value is rounded down. *)
Lemma trunc_spec (m e : Z) (l : location) :
  0 < m -> e <= fexp prec emax (Zdigits2 m + e) ->
  exists mrs e1,
    shr_fexp prec emax m e l = (mrs, e1) /\
    canonical (shr_m mrs) e1 /\
    (F2Q (shr_m mrs) e1 <= F2Q m e)%Q /\ (F2Q m e < F2Q (shr_m mrs + 1) e1)%Q /\
    (l = loc_Exact -> (F2Q (shr_m mrs) e1 == F2Q m e)%Q -> loc_of_shr_record mrs = loc_Exact).
Proof.
  intros Hm Hnorm. destruct (Zdigits2_bounds m Hm) as (Hd & Hlo & Hhi).
  set (d := Zdigits2 m) in *. rewrite fexp_eq in Hnorm.
  unfold shr_fexp. fold d. rewrite fexp_eq.
  set (e1 := Z.max (d + e - 53) (-1074)) in *.
  set (n := e1 - e).
  assert (0 <= n) as Hn by (unfold n; lia).
  assert (0 < 2 ^ n) as Hpn by (apply Z.pow_pos_nonneg; lia).
  assert (exists mrs, shr (shr_record_of_loc m l) e n = (mrs, e1) /\
            shr_m mrs = m / 2 ^ n /\
            (l = loc_Exact -> m mod 2 ^ n = 0 -> loc_of_shr_record mrs = loc_Exact))
    as (mrs & Hshr & Hm1 & Hex).
  { destruct (Z.eq_dec n 0) as [Hn0|Hn0].
    - exists (shr_record_of_loc m l). rewrite Hn0. split; [|split].
      + simpl. f_equal. unfold n in Hn0. lia.
      + destruct l as [|[]]; simpl; now rewrite Z.div_1_r.
      + intros -> _. reflexivity.
    - destruct (shr_spec m e n l ltac:(lia) ltac:(lia)) as (mrs & H1 & H2 & H3).
      exists mrs. replace (e + n) with e1 in H1 by (unfold n; lia). auto. }
  exists mrs, e1. split; [exact Hshr|].
  pose proof (Z.div_mod m (2 ^ n) ltac:(lia)) as Hdm.
  pose proof (Z.mod_pos_bound m (2 ^ n) Hpn) as Hmb.
  assert (0 <= m / 2 ^ n) as Hq by (apply Z.div_pos; lia).
  rewrite Hm1.
  assert (F2Q (m / 2 ^ n) e1 == F2Q (m / 2 ^ n * 2 ^ n) e)%Q as Ea
    by (apply F2Q_align; lia).
  assert (F2Q (m / 2 ^ n + 1) e1 == F2Q ((m / 2 ^ n + 1) * 2 ^ n) e)%Q as Eb
    by (apply F2Q_align; lia).
  split; [|split; [|split]].
  - split; [unfold e1; lia|]. split.
    + split; [exact Hq|].
      destruct (Z.le_gt_cases n d) as [Hnd|Hnd].
      * apply Z.div_lt_upper_bound; [lia|].
        assert (2 ^ d <= 2 ^ n * 2 ^ 53).
        { rewrite <- Z.pow_add_r by lia. apply Z.pow_le_mono_r; unfold n, e1; lia. }
        lia.
      * rewrite Z.div_small; [lia|]. split; [lia|].
        assert (2 ^ d <= 2 ^ n) by (apply Z.pow_le_mono_r; lia). lia.
    + destruct (Z.eq_dec e1 (-1074)) as [|Hne]; [now left|right].
      assert (n = d - 53) as Hnd by (unfold n, e1 in *; lia).
      apply Z.div_le_lower_bound; [lia|].
      replace (d - 1) with (n + 52) in Hlo by lia.
      rewrite Z.pow_add_r in Hlo by lia. lia.
  - rewrite Ea. apply F2Q_le. nia.
  - rewrite Eb. apply F2Q_lt. nia.
  - intros Hl Heq. apply Hex; [exact Hl|]. rewrite Ea in Heq.
    assert (m / 2 ^ n * 2 ^ n = m) as Hz.
    { apply Z.le_antisymm; [nia|]. apply (F2Q_le _ _ e). rewrite Heq. lra. }
    lia.
Qed.

Lemma round_nearest_even_spec (m : Z) (l : location) :
  m <= round_nearest_even m l <= m + 1 /\
  (l = loc_Exact -> round_nearest_even m l = m).
Proof.
  unfold round_nearest_even. destruct l as [|[]]; try destruct (Z.even m); split; try lia; auto;
    intros; discriminate.
Qed.

(** The second shift renormalises a mantissa that rounding brought to
    [2^53]; it keeps the value. *)
Lemma second_trunc_spec (m1 e1 m2 : Z) :
  canonical m1 e1 -> m1 <= m2 <= m1 + 1 ->
  exists mrs e3,
    shr_fexp prec emax m2 e1 loc_Exact = (mrs, e3) /\
    canonical (shr_m mrs) e3 /\ (F2Q (shr_m mrs) e3 == F2Q m2 e1)%Q.
Proof.
  intros (He1 & [Hm1 Hm1'] & Hc) Hm2. unfold shr_fexp. rewrite fexp_eq.
  destruct (Z.eq_dec m2 0) as [->|Hnz].
  - assert (e1 = -1074) as -> by lia. simpl.
    eexists _, _. split; [reflexivity|]. simpl. split; [|reflexivity].
    unfold canonical. lia.
  - assert (0 < m2) as Hpos by lia.
    destruct (Zdigits2_bounds m2 Hpos) as (Hd & Hlo & Hhi).
    destruct (Z.eq_dec m2 (2 ^ 53)) as [E|Hne].
    + assert (Zdigits2 m2 = 54) as ->.
      { apply Z.le_antisymm.
        - apply Zdigits2_le; [lia|]. rewrite E. reflexivity.
        - apply (Zdigits2_ge m2 53); lia. }
      replace (Z.max (54 + e1 - 53) (-1074) - e1) with 1 by lia.
      destruct (shr_spec m2 e1 1 loc_Exact ltac:(lia) ltac:(lia)) as (mrs & H1 & H2 & _).
      exists mrs, (e1 + 1). split; [exact H1|]. rewrite H2, E.
      change (2 ^ 53 / 2 ^ 1) with (2 ^ 52). split.
      * unfold canonical. lia.
      * rewrite (F2Q_align (2 ^ 52) (e1 + 1) e1) by lia.
        replace (e1 + 1 - e1) with 1 by lia. reflexivity.
    + assert (m2 < 2 ^ 53) as Hlt by lia.
      assert (Z.max (Zdigits2 m2 + e1 - 53) (-1074) - e1 = 0) as ->.
      { pose proof (Zdigits2_le m2 53 Hpos Hlt).
        destruct Hc as [->|Hc]; [lia|].
        pose proof (Zdigits2_ge m2 52 ltac:(lia) ltac:(lia)). lia. }
      exists (shr_record_of_loc m2 loc_Exact), e1. simpl. split; [reflexivity|].
      split; [|reflexivity]. unfold canonical. lia.
Qed.

(** ** binary_round_aux *)

(** Rounding to nearest is monotone: a value between two non-negative
    numbers of the format is rounded to a finite number between them. *)
Lemma binary_round_aux_between (m e : Z) (l : location) (mB eB mX eX : Z) :
  0 < m -> e <= fexp prec emax (Zdigits2 m + e) ->
  representable mB eB -> representable mX eX -> eX <= 971 ->
  (F2Q mB eB <= F2Q m e)%Q -> (F2Q m e <= F2Q mX eX)%Q ->
  (l <> loc_Exact -> (F2Q m e < F2Q mX eX)%Q) ->
  fin_nonneg (binary_round_aux prec emax false m e l) /\
  (F2Q mB eB <= SF2Q (binary_round_aux prec emax false m e l))%Q /\
  (SF2Q (binary_round_aux prec emax false m e l) <= F2Q mX eX)%Q.
Proof.
  intros Hm Hnorm HB HX HeX Hlow Hup Hstrict.
  destruct (trunc_spec m e l Hm Hnorm) as (mrs & e1 & Hs1 & Hc1 & Hle & Hlt & Hex).
  set (m1 := shr_m mrs) in *.
  destruct (round_nearest_even_spec m1 (loc_of_shr_record mrs)) as [Hr Hrex].
  set (m2 := round_nearest_even m1 (loc_of_shr_record mrs)) in *.
  destruct (second_trunc_spec m1 e1 m2 Hc1 Hr) as (mrs' & e3 & Hs2 & Hc3 & Hv3).
  set (m3 := shr_m mrs') in *.
  unfold binary_round_aux. rewrite Hs1. fold m1. fold m2. rewrite Hs2. fold m3.
  (* bounds on the value m3 * 2^e3 *)
  assert (F2Q mB eB <= F2Q m3 e3)%Q as HlowV.
  { rewrite Hv3. apply Qle_trans with (F2Q m1 e1).
    - apply grid_le; [exact HB| |lra].
      intros H. apply (canonical_big m1 e1 eB Hc1); [apply HB|exact H].
    - apply F2Q_le. lia. }
  assert (F2Q m3 e3 <= F2Q mX eX)%Q as HupV.
  { rewrite Hv3. destruct (Z.eq_dec m2 m1) as [E|Hne]; [rewrite E; lra|].
    assert (m2 = m1 + 1) as E by lia. rewrite E.
    apply grid_ge; [exact HX| |].
    - intros H. apply (canonical_big m1 e1 eX Hc1); [apply HX|exact H].
    - destruct (Qlt_le_dec (F2Q m1 e1) (F2Q m e)) as [Hlt1|Hge1]; [lra|].
      assert (F2Q m1 e1 == F2Q m e)%Q as Heq by lra.
      destruct l as [|c].
      + exfalso. apply Hne. apply Hrex. now apply Hex.
      + assert (F2Q m e < F2Q mX eX)%Q by (apply Hstrict; discriminate). lra. }
  destruct Hc3 as (He3 & [Hm3 Hm3'] & Hc3).
  destruct m3 as [|p3|p3] eqn:Em3; try lia.
  - split; [now left|]. simpl. rewrite F2Q_zero in HlowV, HupV. split; lra.
  - assert (e3 <= 971) as Hfin.
    { destruct (Z.le_gt_cases e3 971) as [|Hgt]; [assumption|exfalso].
      assert (2 ^ 52 <= Z.pos p3) as Hbig by lia.
      pose proof (F2Q_representable_lt _ _ HX) as H1.
      assert (2 ^ (53 + eX) <= 2 ^ (52 + e3))%Q as H2 by (apply pow2_le; lia).
      rewrite <- (F2Q_pow 52 e3) in H2 by lia.
      assert (F2Q (2 ^ 52) e3 <= F2Q (Z.pos p3) e3)%Q as H3 by now apply F2Q_le.
      lra. }
    apply Z.leb_le in Hfin as Hb. change (emax - prec) with 971. rewrite Hb.
    split; [|split; [exact HlowV|exact HupV]].
    right. exists p3, e3. split; [reflexivity|]. split; [|exact Hfin].
    unfold canonical. lia.
Qed.

(** ** Normalisation of an exact value *)

Lemma iter_xO_value (p d : positive) :
  Z.pos (Pos.iter xO p d) = Z.pos p * 2 ^ Z.pos d /\
  Z.pos (digits2_pos (Pos.iter xO p d)) = Z.pos (digits2_pos p) + Z.pos d.
Proof.
  induction d as [|d IH] using Pos.peano_ind.
  - simpl. lia.
  - rewrite Pos.iter_succ. destruct IH as [IH1 IH2]. cbn [digits2_pos].
    rewrite Pos2Z.inj_xO, IH1, !Pos2Z.inj_succ, IH2, Z.pow_succ_r by lia. lia.
Qed.

Lemma shl_align_spec (p : positive) (e e' : Z) :
  exists mz ez, shl_align p e e' = (mz, ez) /\
    ez = Z.min e e' /\ Z.pos mz = Z.pos p * 2 ^ (e - ez) /\
    Z.pos (digits2_pos mz) + ez = Z.pos (digits2_pos p) + e.
Proof.
  unfold shl_align. destruct (e' - e) as [|d|d] eqn:E.
  - exists p, e. replace (Z.min e e') with e by lia. rewrite Z.sub_diag. simpl.
    repeat split; lia.
  - exists p, e. replace (Z.min e e') with e by lia. rewrite Z.sub_diag. simpl.
    repeat split; lia.
  - exists (Pos.iter xO p d), e'. replace (Z.min e e') with e' by lia.
    destruct (iter_xO_value p d) as [H1 H2].
    replace (e - e') with (Z.pos d) by lia. repeat split; lia.
Qed.

Lemma float_value_eq (v v' : Q) : (v == v')%Q -> float_value v -> float_value v'.
Proof. intros E (m & e & H1 & H2 & H3). exists m, e. repeat split; try apply H1; auto. now rewrite <- E. Qed.

Lemma float_value_zero : float_value 0.
Proof. exists 0, 0. unfold representable. rewrite F2Q_zero. repeat split; try lia; reflexivity. Qed.

Lemma float_value_fin (x : float) : fin_nonneg x -> float_value (SF2Q x).
Proof.
  intros [->|(m & e & -> & Hc & He)]; [apply float_value_zero|].
  exists (Z.pos m), e. split; [now apply canonical_representable|]. split; [exact He|reflexivity].
Qed.

Lemma float_value_Z (z : Z) : 0 <= z < 2 ^ 53 -> float_value (inject_Z z).
Proof.
  intros H. exists z, 0. unfold representable, F2Q. repeat split; try lia.
  change (2 ^ 0)%Q with 1%Q. ring.
Qed.

Lemma fin_nonneg_nonneg (x : float) : fin_nonneg x -> (0 <= SF2Q x)%Q.
Proof.
  intros [->|(m & e & -> & _)]; simpl; [lra|]. apply F2Q_nonneg. lia.
Qed.

(** The same for an exact value [m * 2^e] given to [binary_normalize]. *)
Lemma binary_normalize_between (m e : Z) (b u : Q) :
  0 <= m -> float_value b -> float_value u -> (b <= F2Q m e)%Q -> (F2Q m e <= u)%Q ->
  fin_nonneg (binary_normalize prec emax m e false) /\
  (b <= SF2Q (binary_normalize prec emax m e false))%Q /\
  (SF2Q (binary_normalize prec emax m e false) <= u)%Q.
Proof.
  intros Hm (mB & eB & HB & _ & Eb) (mX & eX & HX & HeX & Eu) Hlo Hhi.
  destruct m as [|p|p]; try lia.
  - simpl. rewrite F2Q_zero in Hlo, Hhi. split; [now left|]. split; lra.
  - cbn [binary_normalize]. unfold binary_round.
    destruct (shl_align_spec p e (fexp prec emax (Z.pos (digits2_pos p) + e)))
      as (mz & ez & -> & Hez & Hmz & Hdig).
    assert (F2Q (Z.pos mz) ez == F2Q (Z.pos p) e)%Q as Hv.
    { rewrite Hmz. rewrite F2Q_shift by lia. now replace (ez + (e - ez)) with e by lia. }
    rewrite Eb in Hlo |- *. rewrite Eu in Hhi |- *. rewrite <- Hv in Hlo, Hhi.
    apply binary_round_aux_between; auto; try lia.
    + cbn [Zdigits2]. rewrite Hdig. lia.
    + intros H. now contradiction H.
Qed.

(** A value of the format is kept. *)
Lemma binary_normalize_exact (m e : Z) :
  0 <= m -> float_value (F2Q m e) ->
  fin_nonneg (binary_normalize prec emax m e false) /\
  (SF2Q (binary_normalize prec emax m e false) == F2Q m e)%Q.
Proof.
  intros Hm Hr.
  destruct (binary_normalize_between m e (F2Q m e) (F2Q m e) Hm Hr Hr) as (H1 & H2 & H3);
    try lra.
  split; [exact H1|lra].
Qed.

(** ** Subtraction and addition of non-negative numbers *)

Lemma aligned_value (p : positive) (e ez : Z) :
  ez <= e -> (F2Q (Z.pos (fst (shl_align p e ez))) ez == F2Q (Z.pos p) e)%Q.
Proof.
  intros H. destruct (shl_align_spec p e ez) as (mz & ez' & -> & Hez & Hmz & _).
  cbn [fst]. rewrite Hmz. replace ez' with ez in * by lia.
  rewrite F2Q_shift by lia. now replace (ez + (e - ez)) with e by lia.
Qed.

Lemma F2Q_sub (a b e : Z) : (F2Q (a - b) e == F2Q a e - F2Q b e)%Q.
Proof. unfold F2Q, Z.sub. rewrite inject_Z_plus, inject_Z_opp. ring. Qed.

Lemma F2Q_add (a b e : Z) : (F2Q (a + b) e == F2Q a e + F2Q b e)%Q.
Proof. unfold F2Q. rewrite inject_Z_plus. ring. Qed.

Lemma F2Q_mul (a b e1 e2 : Z) : (F2Q (a * b) (e1 + e2) == F2Q a e1 * F2Q b e2)%Q.
Proof. unfold F2Q. rewrite inject_Z_mult, pow2_add. ring. Qed.

Lemma fin_pos_value (m : positive) (e : Z) : (0 < SF2Q (S754_finite false m e))%Q.
Proof.
  simpl. rewrite <- (F2Q_zero e). apply F2Q_lt. lia.
Qed.

(** [x - y] for [0 <= y <= x]: the result is between the bounds of the
    exact difference. *)
Lemma sub_between (x y : float) (b u : Q) :
  fin_nonneg x -> fin_nonneg y -> float_value b -> float_value u ->
  (b <= SF2Q x - SF2Q y)%Q -> (SF2Q x - SF2Q y <= u)%Q ->
  fin_nonneg (sub x y) /\ (b <= SF2Q (sub x y))%Q /\ (SF2Q (sub x y) <= u)%Q.
Proof.
  intros Hx Hy Hb Hu Hlo Hhi.
  assert (0 <= b)%Q as Hb0.
  { destruct Hb as (mB & eB & [HB _] & _ & ->). apply F2Q_nonneg. lia. }
  destruct Hx as [->|(mx & ex & -> & Hcx & Hex)], Hy as [->|(my & ey & -> & Hcy & Hey)].
  - simpl in *. split; [now left|]. split; lra.
  - exfalso. pose proof (fin_pos_value my ey). change (SF2Q (S754_zero false)) with 0%Q in *.
    lra.
  - change (SF2Q (S754_zero false)) with 0%Q in *.
    cbn [sub SFsub]. split; [right; eauto|]. split; lra.
  - unfold sub. cbn [SFsub cond_Zopp].
    set (ez := Z.min ex ey).
    assert (F2Q (Z.pos (fst (shl_align mx ex ez)) - Z.pos (fst (shl_align my ey ez))) ez ==
            SF2Q (S754_finite false mx ex) - SF2Q (S754_finite false my ey))%Q as Hv.
    { rewrite F2Q_sub, !aligned_value by (unfold ez; lia). reflexivity. }
    apply binary_normalize_between; auto.
    + apply (F2Q_le _ _ ez). rewrite F2Q_zero, Hv. lra.
    + now rewrite Hv.
    + now rewrite Hv.
Qed.

Lemma add_between (x y : float) (b u : Q) :
  fin_nonneg x -> fin_nonneg y -> float_value b -> float_value u ->
  (b <= SF2Q x + SF2Q y)%Q -> (SF2Q x + SF2Q y <= u)%Q ->
  fin_nonneg (add x y) /\ (b <= SF2Q (add x y))%Q /\ (SF2Q (add x y) <= u)%Q.
Proof.
  intros Hx Hy Hb Hu Hlo Hhi.
  destruct Hx as [->|(mx & ex & -> & Hcx & Hex)], Hy as [->|(my & ey & -> & Hcy & Hey)].
  - simpl in *. split; [now left|]. split; lra.
  - change (SF2Q (S754_zero false)) with 0%Q in *.
    cbn [add SFadd]. split; [right; eauto|]. split; lra.
  - change (SF2Q (S754_zero false)) with 0%Q in *.
    cbn [add SFadd]. split; [right; eauto|]. split; lra.
  - unfold add. cbn [SFadd cond_Zopp].
    set (ez := Z.min ex ey).
    assert (F2Q (Z.pos (fst (shl_align mx ex ez)) + Z.pos (fst (shl_align my ey ez))) ez ==
            SF2Q (S754_finite false mx ex) + SF2Q (S754_finite false my ey))%Q as Hv.
    { rewrite F2Q_add, !aligned_value by (unfold ez; lia). reflexivity. }
    apply binary_normalize_between; auto.
    + lia.
    + now rewrite Hv.
    + now rewrite Hv.
Qed.

(** ** Multiplication and division *)

(** The product by a float with a full mantissa. *)
Lemma mul_between (x : float) (my : positive) (ey : Z) (b u : Q) :
  fin_nonneg x -> 2 ^ 52 <= Z.pos my -> float_value b -> float_value u ->
  (b <= SF2Q x * F2Q (Z.pos my) ey)%Q -> (SF2Q x * F2Q (Z.pos my) ey <= u)%Q ->
  fin_nonneg (mul x (S754_finite false my ey)) /\
  (b <= SF2Q (mul x (S754_finite false my ey)))%Q /\
  (SF2Q (mul x (S754_finite false my ey)) <= u)%Q.
Proof.
  intros Hx Hmy (mB & eB & HB & _ & Eb) (mX & eX & HX & HeX & Eu) Hlo Hhi.
  destruct Hx as [->|(mx & ex & -> & Hcx & Hex)].
  - change (SF2Q (S754_zero false)) with 0%Q in *. simpl.
    split; [now left|]. split; lra.
  - unfold mul. cbn [SFmul xorb]. rewrite Pos2Z.inj_mul.
    assert (F2Q (Z.pos mx * Z.pos my) (ex + ey) ==
            SF2Q (S754_finite false mx ex) * F2Q (Z.pos my) ey)%Q as Hv
      by apply F2Q_mul.
    rewrite Eb in Hlo |- *. rewrite Eu in Hhi |- *. rewrite <- Hv in Hlo, Hhi.
    apply binary_round_aux_between; auto; try lia.
    + rewrite fexp_eq.
      pose proof (Zdigits2_ge (Z.pos mx * Z.pos my) 52 ltac:(lia) ltac:(nia)). lia.
    + intros H. now contradiction H.
Qed.

Lemma new_location_exact (nb k : Z) : new_location nb k = loc_Exact <-> k = 0.
Proof.
  unfold new_location, new_location_even, new_location_odd.
  destruct (Z.even nb); destruct (Z.eqb_spec k 0); split; intros; try reflexivity;
    try assumption; try discriminate; try contradiction.
Qed.

(** The integer division of [SFdiv]: quotient, remainder and location. *)
Lemma div_core_spec (mx : positive) (ex : Z) (my : positive) (ey : Z) :
  exists q e' l r,
    SFdiv_core_binary prec emax (Z.pos mx) ex (Z.pos my) ey = (q, e', l) /\
    0 <= r < Z.pos my /\ e' <= ex - ey /\
    Z.pos mx * 2 ^ (ex - ey - e') = q * Z.pos my + r /\
    0 <= q /\ (-1074 < e' -> 2 ^ 52 <= q) /\
    (l = loc_Exact <-> r = 0).
Proof.
  unfold SFdiv_core_binary. cbn [Zdigits2].
  set (d1 := Z.pos (digits2_pos mx)). set (d2 := Z.pos (digits2_pos my)).
  rewrite fexp_eq.
  set (e' := Z.min (Z.max (d1 + ex - (d2 + ey) - 53) (-1074)) (ex - ey)).
  set (s := ex - ey - e').
  assert (0 <= s) as Hs by (unfold s, e'; lia).
  set (m' := match s with Z.pos _ => Z.shiftl (Z.pos mx) s | 0 => Z.pos mx | Z.neg _ => 0 end).
  assert (m' = Z.pos mx * 2 ^ s) as Hm'.
  { unfold m'. destruct s as [|p|p] eqn:E; try lia.
    now rewrite Z.shiftl_mul_pow2 by lia. }
  pose proof (Z_div_mod m' (Z.pos my) ltac:(lia)) as Hdm.
  destruct (Z.div_eucl m' (Z.pos my)) as [q r] eqn:Ediv.
  destruct Hdm as [Hdm Hr].
  exists q, e', (new_location (Z.pos my) r), r.
  assert (0 < 2 ^ s) as Hps by (apply Z.pow_pos_nonneg; lia).
  assert (0 <= q) as Hq by nia.
  split; [reflexivity|]. split; [exact Hr|]. split; [unfold e'; lia|].
  split; [fold s; lia|]. split; [exact Hq|]. split; [|apply new_location_exact].
  intros He'.
  pose proof (digits2_pos_bounds mx) as [Hx1 _]. fold d1 in Hx1.
  pose proof (digits2_pos_bounds my) as [_ Hy2]. fold d2 in Hy2.
  assert (53 - d1 + d2 <= s) as Hs' by (unfold s, e' in *; lia).
  assert (0 < d1 /\ 0 < d2) as [Hd1 Hd2] by (unfold d1, d2; lia).
  assert (2 ^ (52 + d2) <= m') as Hbig.
  { rewrite Hm'. destruct (Z.le_gt_cases 0 (53 - d1 + d2)) as [Hge|Hneg].
    - replace (52 + d2) with ((d1 - 1) + (53 - d1 + d2)) by lia.
      rewrite Z.pow_add_r by lia.
      assert (2 ^ (53 - d1 + d2) <= 2 ^ s) by (apply Z.pow_le_mono_r; lia).
      assert (0 < 2 ^ (53 - d1 + d2)) by (apply Z.pow_pos_nonneg; lia).
      nia.
    - assert (2 ^ (52 + d2) <= 2 ^ (d1 - 1)) by (apply Z.pow_le_mono_r; lia).
      nia. }
  rewrite Z.pow_add_r in Hbig by lia.
  destruct (Z.le_gt_cases (2 ^ 52) q) as [|Hlt]; [assumption|exfalso].
  assert (q + 1 <= 2 ^ 52) by lia.
  assert (0 < 2 ^ 52) by (apply Z.pow_pos_nonneg; lia).
  nia.
Qed.

Lemma sign_bit_binary_round_aux (m e : Z) (l : location) :
  sign_bit (binary_round_aux prec emax false m e l) = false.
Proof.
  unfold binary_round_aux.
  destruct (shr_fexp prec emax m e l) as [mrs' e1].
  destruct (shr_fexp prec emax _ e1 loc_Exact) as [mrs'' e2].
  destruct (shr_m mrs''); try reflexivity.
  destruct (e2 <=? emax - prec); reflexivity.
Qed.

(** [x / y] for [0 < y <= x]: the result is between the bounds of the
    exact quotient. *)
Lemma div_between (mx : positive) (ex : Z) (my : positive) (ey : Z) (b u : Q) :
  float_value b -> float_value u ->
  (F2Q (Z.pos my) ey <= F2Q (Z.pos mx) ex)%Q ->
  (b * F2Q (Z.pos my) ey <= F2Q (Z.pos mx) ex)%Q ->
  (F2Q (Z.pos mx) ex <= u * F2Q (Z.pos my) ey)%Q ->
  let r := div (S754_finite false mx ex) (S754_finite false my ey) in
  fin_nonneg r /\ (b <= SF2Q r)%Q /\ (SF2Q r <= u)%Q.
Proof.
  intros (mB & eB & HB & HeB & Eb) (mX & eX & HX & HeX & Eu) Hone Hlo Hhi.
  unfold div. cbn [SFdiv xorb].
  destruct (div_core_spec mx ex my ey) as (q & e' & l & r & -> & Hr & He' & Hdm & Hq & Hbig & Hl).
  set (X := F2Q (Z.pos mx) ex) in *. set (Y := F2Q (Z.pos my) ey) in *.
  assert (0 < Y)%Q as HY by (unfold Y; rewrite <- (F2Q_zero ey); apply F2Q_lt; lia).
  assert (X == F2Q q e' * Y + F2Q r (e' + ey))%Q as HX'.
  { unfold X, Y. rewrite <- F2Q_mul, <- F2Q_add, <- Hdm.
    rewrite F2Q_shift by lia. now replace (e' + ey + (ex - ey - e')) with ex by lia. }
  assert (0 <= F2Q r (e' + ey))%Q as Hr0 by (apply F2Q_nonneg; lia).
  assert (F2Q r (e' + ey) < F2Q 1 e' * Y)%Q as Hr1.
  { unfold Y. rewrite <- F2Q_mul, Z.mul_1_l. apply F2Q_lt. lia. }
  assert (F2Q (q + 1) e' == F2Q q e' + F2Q 1 e')%Q as Hq1 by apply F2Q_add.
  assert (0 < q) as Hqpos.
  { destruct (Z.le_gt_cases e' (-1074)) as [Hsmall|Hlarge].
    - destruct (Z.eq_dec q 0) as [->|]; [exfalso|lia].
      rewrite F2Q_zero in HX'.
      assert (F2Q 1 e' <= 1)%Q.
      { unfold F2Q. change (inject_Z 1) with 1%Q.
        assert (2 ^ e' <= 2 ^ 0)%Q by (apply pow2_le; lia).
        change (2 ^ 0)%Q with 1%Q in *. lra. }
      nra.
    - specialize (Hbig Hlarge). assert (0 < 2 ^ 52) by (apply Z.pow_pos_nonneg; lia). lia. }
  rewrite Eb in Hlo |- *. rewrite Eu in Hhi |- *.
  apply binary_round_aux_between; auto.
  - rewrite fexp_eq. destruct (Z.le_gt_cases e' (-1074)) as [Hsmall|Hlarge]; [lia|].
    specialize (Hbig Hlarge).
    pose proof (Zdigits2_ge q 52 ltac:(lia) Hbig). lia.
  - apply grid_le; [exact HB| |].
    + intros H. apply Hbig. destruct HB. lia.
    + rewrite Hq1. apply (Qmult_lt_r _ _ Y HY). nra.
  - apply (Qmult_le_r _ _ Y HY). nra.
  - intros Hne. apply (Qmult_lt_r _ _ Y HY).
    assert (r <> 0) as Hrne by (intros E; apply Hne; now apply Hl).
    assert (0 < F2Q r (e' + ey))%Q by (rewrite <- (F2Q_zero (e' + ey)); apply F2Q_lt; lia).
    nra.
Qed.

(** ** Integer part, floor, remainder *)

(** The integer part is the floor of the value. *)
Lemma int_part_spec (m : positive) (e : Z) :
  0 <= int_part m e /\
  (inject_Z (int_part m e) <= F2Q (Z.pos m) e)%Q /\
  (F2Q (Z.pos m) e < inject_Z (int_part m e + 1))%Q.
Proof.
  assert (forall z, inject_Z z == F2Q z 0)%Q as Hinj.
  { intros z. unfold F2Q. change (2 ^ 0)%Q with 1%Q. ring. }
  unfold int_part. destruct (Z.leb_spec 0 e) as [He|He].
  - assert (0 < 2 ^ e) by (apply Z.pow_pos_nonneg; lia).
    split; [nia|].
    rewrite (Hinj (Z.pos m * 2 ^ e)), (Hinj (Z.pos m * 2 ^ e + 1)).
    rewrite F2Q_add, (F2Q_shift (Z.pos m) 0 e) by lia.
    replace (0 + e) with e by lia. assert (0 < F2Q 1 0)%Q by (rewrite <- (F2Q_zero 0); apply F2Q_lt; lia).
    split; lra.
  - assert (0 < 2 ^ (- e)) as Hp by (apply Z.pow_pos_nonneg; lia).
    pose proof (Z.div_mod (Z.pos m) (2 ^ (- e)) ltac:(lia)) as Hdm.
    pose proof (Z.mod_pos_bound (Z.pos m) (2 ^ (- e)) Hp) as Hmb.
    assert (0 <= Z.pos m / 2 ^ (- e)) as Hq by (apply Z.div_pos; lia).
    split; [exact Hq|].
    rewrite (Hinj (Z.pos m / 2 ^ (- e))), (Hinj (Z.pos m / 2 ^ (- e) + 1)).
    rewrite (F2Q_align (Z.pos m / 2 ^ (- e)) 0 e), (F2Q_align (Z.pos m / 2 ^ (- e) + 1) 0 e) by lia.
    replace (0 - e) with (- e) by lia.
    split; [apply F2Q_le|apply F2Q_lt]; nia.
Qed.

Lemma float_value_int_part (m : positive) (e : Z) :
  canonical (Z.pos m) e -> e <= 971 -> float_value (inject_Z (int_part m e)).
Proof.
  intros Hc He. unfold int_part. destruct (Z.leb_spec 0 e) as [H0|H0].
  - exists (Z.pos m), e. split; [now apply canonical_representable|]. split; [exact He|].
    rewrite <- (Z.add_0_l e) at 2. rewrite <- F2Q_shift by lia.
    unfold F2Q. change (2 ^ 0)%Q with 1%Q. ring.
  - apply float_value_Z. destruct Hc as (_ & [_ Hm] & _).
    assert (0 < 2 ^ (- e)) as Hp by (apply Z.pow_pos_nonneg; lia).
    split; [apply Z.div_pos; lia|].
    apply Z.div_lt_upper_bound; [lia|]. nia.
Qed.

(** [int(x)] returns the floor of a non-negative finite [x]. *)
Lemma py_int_fin (x : float) :
  fin_nonneg x ->
  py_int x = Ok (Ztrunc x) /\ 0 <= Ztrunc x /\
  (inject_Z (Ztrunc x) <= SF2Q x)%Q /\ (SF2Q x < inject_Z (Ztrunc x + 1))%Q /\
  float_value (inject_Z (Ztrunc x)).
Proof.
  intros [->|(m & e & -> & Hc & He)].
  - unfold py_int, Ztrunc. cbn [trunc SF2Q].
    change (inject_Z 0) with 0%Q. change (inject_Z (0 + 1)) with 1%Q.
    split; [reflexivity|]. split; [lia|]. split; [lra|]. split; [lra|apply float_value_zero].
  - unfold py_int, Ztrunc. cbn [trunc cond_Zopp SF2Q].
    destruct (int_part_spec m e) as (H1 & H2 & H3).
    repeat split; auto. now apply float_value_int_part.
Qed.

Lemma of_Z_exact (z : Z) :
  0 <= z -> float_value (inject_Z z) ->
  fin_nonneg (of_Z z) /\ (SF2Q (of_Z z) == inject_Z z)%Q.
Proof.
  intros Hz Hr. unfold of_Z.
  assert (F2Q z 0 == inject_Z z)%Q as E.
  { unfold F2Q. change (2 ^ 0)%Q with 1%Q. ring. }
  destruct (binary_normalize_exact z 0 Hz (float_value_eq _ _ (Qeq_sym _ _ E) Hr)) as [H1 H2].
  split; [exact H1|]. now rewrite H2.
Qed.

Lemma fin_nonneg_finite (x : float) : fin_nonneg x -> is_finite x = true.
Proof. intros [->|(m & e & -> & _)]; reflexivity. Qed.

Lemma py_float_exact (z : Z) :
  0 <= z -> float_value (inject_Z z) ->
  py_float z = Ok (of_Z z) /\ fin_nonneg (of_Z z) /\ (SF2Q (of_Z z) == inject_Z z)%Q.
Proof.
  intros Hz Hr. destruct (of_Z_exact z Hz Hr) as [H1 H2].
  unfold py_float. now rewrite (fin_nonneg_finite _ H1).
Qed.

Lemma floor_fin (x : float) :
  fin_nonneg x ->
  fin_nonneg (floor x) /\ (SF2Q (floor x) == inject_Z (Ztrunc x))%Q.
Proof.
  intros Hx. destruct (py_int_fin x Hx) as (_ & H0 & _ & _ & Hr).
  destruct Hx as [->|(m & e & -> & Hc & He)].
  - simpl. split; [now left|reflexivity].
  - unfold Ztrunc in *. cbn [trunc cond_Zopp floor andb] in *.
    apply (of_Z_exact _ H0 Hr).
Qed.

(** [fmod] is exact: [x = q * y + fmod x y] with [0 <= fmod x y < y]. *)
Lemma fmod_fin (x : float) (my : positive) (ey : Z) :
  fin_nonneg x -> canonical (Z.pos my) ey -> ey <= 971 ->
  let y := S754_finite false my ey in
  fin_nonneg (fmod x y) /\
  (SF2Q (fmod x y) < SF2Q y)%Q /\
  exists q : Z, 0 <= q /\ (SF2Q x == inject_Z q * SF2Q y + SF2Q (fmod x y))%Q.
Proof.
  intros Hx Hcy Hey y. pose proof (fin_pos_value my ey) as Hypos. fold y in Hypos.
  destruct Hx as [->|(mx & ex & -> & Hcx & Hex)].
  - cbn [fmod y]. split; [now left|]. split; [exact Hypos|].
    exists 0. split; [lia|]. change (SF2Q (S754_zero false)) with 0%Q.
    change (inject_Z 0) with 0%Q. ring.
  - unfold y. cbn [fmod cond_Zopp].
    set (ez := Z.min ex ey).
    set (X' := Z.pos mx * 2 ^ (ex - ez)). set (Y' := Z.pos my * 2 ^ (ey - ez)).
    assert (0 < 2 ^ (ex - ez) /\ 0 < 2 ^ (ey - ez)) as [Hp1 Hp2]
      by (split; apply Z.pow_pos_nonneg; unfold ez; lia).
    assert (0 < Y') as HY' by (unfold Y'; nia).
    assert (0 < X') as HX' by (unfold X'; nia).
    pose proof (Z.div_mod X' Y' ltac:(lia)) as Hdm.
    pose proof (Z.mod_pos_bound X' Y' HY') as Hmb.
    assert (0 <= X' / Y') as Hq by (apply Z.div_pos; lia).
    assert (F2Q X' ez == F2Q (Z.pos mx) ex)%Q as EX.
    { unfold X'. rewrite F2Q_shift by (unfold ez; lia).
      now replace (ez + (ex - ez)) with ex by lia. }
    assert (F2Q Y' ez == F2Q (Z.pos my) ey)%Q as EY.
    { unfold Y'. rewrite F2Q_shift by (unfold ez; lia).
      now replace (ez + (ey - ez)) with ey by lia. }
    assert (X' mod Y' < 2 ^ 53) as Hsmall.
    { destruct Hcx as (_ & [_ Hmx] & _), Hcy as (_ & [_ Hmy] & _).
      destruct (Z.le_gt_cases ex ey).
      - assert (X' = Z.pos mx) as E
          by (unfold X'; replace (ex - ez) with 0 by (unfold ez; lia); lia).
        pose proof (Z.mod_le X' Y' ltac:(lia) HY'). lia.
      - assert (Y' = Z.pos my) as E
          by (unfold Y'; replace (ey - ez) with 0 by (unfold ez; lia); lia).
        lia. }
    assert (float_value (F2Q (X' mod Y') ez)) as Hrep.
    { exists (X' mod Y'), ez. unfold representable. destruct Hcx as (? & _), Hcy as (? & _).
      repeat split; try (unfold ez; lia); try reflexivity. }
    destruct (binary_normalize_exact (X' mod Y') ez ltac:(lia) Hrep) as [Hf Hv].
    split; [exact Hf|]. rewrite Hv. cbn [SF2Q cond_Zopp]. rewrite <- EY.
    split; [apply F2Q_lt; lia|].
    exists (X' / Y'). split; [exact Hq|]. rewrite <- EX, <- EY, Hv.
    rewrite Hdm at 1. rewrite F2Q_add. unfold F2Q. rewrite !inject_Z_mult. ring.
Qed.

(** ** The floor quotient and the remainder by an integer constant *)

Lemma fin_nonneg_zero (x : float) : fin_nonneg x -> (SF2Q x == 0)%Q -> x = S754_zero false.
Proof.
  intros [->|(m & e & -> & _)] H; [reflexivity|].
  pose proof (fin_pos_value m e). lra.
Qed.

Lemma fin_nonneg_pos (x : float) :
  fin_nonneg x -> (0 < SF2Q x)%Q ->
  exists m e, x = S754_finite false m e /\ canonical (Z.pos m) e /\ e <= 971.
Proof.
  intros [->|H] Hp; [simpl in Hp; lra|exact H].
Qed.

Lemma fin_nonneg_not_neg (x : float) : fin_nonneg x -> is_neg x = false.
Proof. intros [->|(m & e & -> & _)]; reflexivity. Qed.

Lemma float_value_half (x : float) :
  fin_nonneg x -> (2 <= SF2Q x)%Q -> exists h, float_value h /\ (2 * h == SF2Q x)%Q.
Proof.
  intros Hx H2. destruct (fin_nonneg_pos x Hx ltac:(lra)) as (m & e & -> & Hc & He).
  cbn [SF2Q cond_Zopp] in *.
  assert (-1074 < e) as Hlow.
  { destruct (Z.le_gt_cases e (-1074)) as [Hle|]; [exfalso|lia].
    pose proof (F2Q_representable_lt _ _ (canonical_representable _ _ Hc)) as H1.
    assert (2 ^ (53 + e) <= 2 ^ 0)%Q as H3 by (apply pow2_le; lia).
    change (2 ^ 0)%Q with 1%Q in H3. lra. }
  exists (F2Q (Z.pos m) (e - 1)). split.
  - exists (Z.pos m), (e - 1). destruct Hc as (? & ? & ?). unfold representable.
    repeat split; first [lia | reflexivity].
  - rewrite (F2Q_align (Z.pos m) e (e - 1)) by lia.
    replace (e - (e - 1)) with 1 by lia. unfold F2Q. rewrite inject_Z_mult.
    change (inject_Z (2 ^ 1)) with 2%Q. ring.
Qed.

Lemma sign_bit_div (a : float) (my : positive) (ey : Z) :
  fin_nonneg a -> sign_bit (div a (S754_finite false my ey)) = false.
Proof.
  intros [->|(m & e & -> & _)]; [reflexivity|].
  unfold div. cbn [SFdiv xorb].
  destruct (SFdiv_core_binary prec emax (Z.pos m) e (Z.pos my) ey) as [[mz ez] lz].
  apply sign_bit_binary_round_aux.
Qed.

Lemma one_value : fin_nonneg one /\ (SF2Q one == 1)%Q.
Proof.
  split.
  - right. exists (2 ^ 52)%positive, (-52). split; [reflexivity|]. unfold canonical. lia.
  - reflexivity.
Qed.

Section DivMod.

Variables (a : float) (my : positive) (ey : Z) (K : Z).
Hypothesis Ha : fin_nonneg a.
Hypothesis Hy : divisor my ey K.

Local Abbreviation y := (S754_finite false my ey).

(** [vx - mod]: zero when [a < K], else a multiple of [K] rounded, which
    is at least every multiple of [K] of the format that [a] reaches. *)
Lemma sub_fmod_cases :
  fin_nonneg (fmod a y) /\ (SF2Q (fmod a y) < inject_Z K)%Q /\
  (SF2Q (fmod a y) <= SF2Q a)%Q /\
  (sub a (fmod a y) = S754_zero false /\ (SF2Q a < inject_Z K)%Q \/
   fin_nonneg (sub a (fmod a y)) /\
   (inject_Z K <= SF2Q (sub a (fmod a y)))%Q /\
   (SF2Q (sub a (fmod a y)) <= SF2Q a)%Q /\
   forall N, 0 <= N -> float_value (inject_Z (K * N)) -> (inject_Z (K * N) <= SF2Q a)%Q ->
             (inject_Z (K * N) <= SF2Q (sub a (fmod a y)))%Q).
Proof.
  destruct Hy as (Hcy & Hey & HK & HK2).
  destruct (fmod_fin a my ey Ha Hcy Hey) as (Hm & Hlt & q & Hq & Hdm).
  cbn [SF2Q cond_Zopp] in Hlt, Hdm. rewrite HK in Hlt, Hdm.
  pose proof (fin_nonneg_nonneg _ Hm) as Hm0.
  assert (0 < inject_Z K)%Q as HKpos.
  { change 0%Q with (inject_Z 0). rewrite <- Zlt_Qlt. lia. }
  assert (0 <= inject_Z q)%Q as Hq0.
  { change 0%Q with (inject_Z 0). rewrite <- Zle_Qle. lia. }
  split; [exact Hm|]. split; [exact Hlt|]. split; [nra|].
  destruct (Z.eq_dec q 0) as [->|Hqne].
  - left. change (inject_Z 0) with 0%Q in Hdm.
    destruct (sub_between a (fmod a y) 0 0 Ha Hm float_value_zero float_value_zero) as (H1 & H2 & H3);
      try lra.
    split; [apply fin_nonneg_zero; [exact H1|lra]|lra].
  - right.
    assert (1 <= inject_Z q)%Q as Hq1.
    { change 1%Q with (inject_Z 1). rewrite <- Zle_Qle. lia. }
    assert (float_value (inject_Z K)) as HrK.
    { apply (float_value_eq (F2Q (Z.pos my) ey)); [exact HK|].
      exists (Z.pos my), ey. split; [now apply canonical_representable|]. split; [exact Hey|reflexivity]. }
    destruct (sub_between a (fmod a y) (inject_Z K) (SF2Q a) Ha Hm HrK (float_value_fin _ Ha))
      as (H1 & H2 & H3); try nra.
    split; [exact H1|]. split; [exact H2|]. split; [exact H3|].
    intros N HN HrN HNa.
    assert (inject_Z (K * N) <= SF2Q a - SF2Q (fmod a y))%Q as Hlow.
    { rewrite inject_Z_mult in *.
      assert (inject_Z N < inject_Z q + 1)%Q as HNq by nra.
      change 1%Q with (inject_Z 1) in HNq. rewrite <- inject_Z_plus, <- Zlt_Qlt in HNq.
      assert (inject_Z N <= inject_Z q)%Q by (rewrite <- Zle_Qle; lia).
      nra. }
    destruct (sub_between a (fmod a y) (inject_Z (K * N)) (SF2Q a) Ha Hm HrN (float_value_fin _ Ha)
                Hlow ltac:(nra)) as (_ & H4 & _).
    exact H4.
Qed.

(** [div = (vx - mod) / wx]: at least 1, at most [a / 2], and at least
    every integer [N] with [K * N <= vx - mod]. *)
Lemma div_quotient (d1 : float) :
  fin_nonneg d1 -> (inject_Z K <= SF2Q d1)%Q -> (SF2Q d1 <= SF2Q a)%Q ->
  fin_nonneg (div d1 y) /\ (1 <= SF2Q (div d1 y))%Q /\ (2 * SF2Q (div d1 y) <= SF2Q a)%Q /\
  forall N, 0 <= N -> float_value (inject_Z N) -> (inject_Z (K * N) <= SF2Q d1)%Q ->
            (inject_Z N <= SF2Q (div d1 y))%Q.
Proof.
  intros Hd Hlo Hhi. destruct Hy as (Hcy & Hey & HK & HK2).
  assert (2 <= inject_Z K)%Q as HK2q.
  { change 2%Q with (inject_Z 2). rewrite <- Zle_Qle. lia. }
  destruct (fin_nonneg_pos d1 Hd ltac:(lra)) as (m1 & e1 & -> & Hc1 & He1).
  cbn [SF2Q cond_Zopp] in *.
  destruct (float_value_half a Ha ltac:(lra)) as (h & Hrh & Hh).
  assert (float_value 1) as Hr1 by (apply (float_value_Z 1); lia).
  destruct (div_between m1 e1 my ey 1 h Hr1 Hrh) as (H1 & H2 & H3);
    [rewrite HK; nra|rewrite HK; nra|rewrite HK; nra|].
  split; [exact H1|]. split; [exact H2|]. split; [lra|].
  intros N HN HrN HNd.
  assert (inject_Z N * F2Q (Z.pos my) ey <= F2Q (Z.pos m1) e1)%Q as Hlow.
  { rewrite HK. rewrite inject_Z_mult in HNd. lra. }
  destruct (div_between m1 e1 my ey (inject_Z N) h HrN Hrh) as (_ & H4 & _);
    [rewrite HK; nra|exact Hlow|rewrite HK; nra|exact H4].
Qed.

(** [floor(div)], adjusted or not by one, is finite and at least every
    integer that [div] reaches. *)
Lemma floor_or_next (dv : float) :
  fin_nonneg dv -> (1 <= SF2Q dv)%Q -> (2 * SF2Q dv <= SF2Q a)%Q ->
  let fl := floor dv in
  let fd := if ltb half (sub dv fl) then add fl one else fl in
  fin_nonneg fd /\ (SF2Q fd <= SF2Q a)%Q /\
  forall N, float_value (inject_Z N) -> (inject_Z N <= SF2Q dv)%Q -> (inject_Z N <= SF2Q fd)%Q.
Proof.
  intros Hd H1 H2 fl fd.
  destruct (floor_fin dv Hd) as (Hfl & Efl). fold fl in Hfl, Efl.
  destruct (py_int_fin dv Hd) as (_ & HT0 & HT1 & HT2 & _).
  assert (forall N, (inject_Z N <= SF2Q dv)%Q -> (inject_Z N <= SF2Q fl)%Q) as Hfloor.
  { intros N HN. rewrite Efl. rewrite <- Zle_Qle.
    assert (inject_Z N < inject_Z (Ztrunc dv + 1))%Q as H by lra.
    rewrite <- Zlt_Qlt in H. lia. }
  unfold fd. destruct (ltb half (sub dv fl)).
  - destruct one_value as [Ho1 Ho2].
    assert (forall N, float_value (inject_Z N) -> (inject_Z N <= SF2Q dv)%Q ->
                      fin_nonneg (add fl one) /\ (inject_Z N <= SF2Q (add fl one))%Q /\
                      (SF2Q (add fl one) <= SF2Q a)%Q) as Hadd.
    { intros N HrN HN. specialize (Hfloor N HN).
      apply add_between; auto; [apply (float_value_fin _ Ha)|rewrite Ho2; lra|rewrite Ho2; lra]. }
    destruct (Hadd 0 float_value_zero ltac:(change (inject_Z 0) with 0%Q; lra)) as (Hf & _ & Hu).
    split; [exact Hf|]. split; [exact Hu|].
    intros N HrN HN. now destruct (Hadd N HrN HN) as (_ & H & _).
  - split; [exact Hfl|]. split; [lra|]. intros N _ HN. now apply Hfloor.
Qed.

(** Both results of [_float_div_mod] are finite and non-negative; the
    quotient is at least [N] when [a >= K * N]. *)
Lemma float_div_mod_fin :
  fin_nonneg (fst (float_div_mod a y)) /\
  fin_nonneg (snd (float_div_mod a y)) /\
  (forall N, 0 <= N -> float_value (inject_Z N) -> float_value (inject_Z (K * N)) ->
     (inject_Z (K * N) <= SF2Q a)%Q ->
     (inject_Z N <= SF2Q (fst (float_div_mod a y)))%Q).
Proof.
  destruct sub_fmod_cases as (Hm & HmK & Hma & Hcases).
  pose proof (fin_nonneg_not_neg _ Hm) as Hneg.
  unfold float_div_mod.
  set (mod0 := fmod a y) in *. set (div0 := div (sub a mod0) y).
  assert ((if negb (is_zero mod0)
           then if negb (Bool.eqb (is_neg y) (is_neg mod0))
                then (add mod0 y, sub div0 one) else (mod0, div0)
           else (zero_with_sign_of y, div0)) =
          (if negb (is_zero mod0) then mod0 else S754_zero false, div0)) as ->.
  { rewrite Hneg. cbn [is_neg Bool.eqb negb]. now destruct (negb (is_zero mod0)). }
  cbn [fst snd].
  assert (fin_nonneg (if negb (is_zero mod0) then mod0 else S754_zero false)) as Hmd.
  { destruct (negb (is_zero mod0)); [exact Hm|now left]. }
  destruct Hcases as [[Hz HaK]|(Hd1 & Hd1K & Hd1a & HN)].
  - assert (div0 = S754_zero false) as -> by (unfold div0; rewrite Hz; reflexivity).
    cbn [is_zero negb]. unfold zero_with_sign_of.
    replace (sign_bit (div a y)) with false by (symmetry; apply sign_bit_div; exact Ha).
    split; [now left|]. split; [exact Hmd|].
    intros N HN0 _ _ HNa. destruct Hy as (_ & _ & _ & HK2).
    assert (inject_Z (K * N) < inject_Z K)%Q as H by lra.
    rewrite <- Zlt_Qlt in H.
    assert (N < 1) by (apply (Z.mul_lt_mono_pos_l K); lia).
    assert (N = 0) as -> by lia. apply Qle_refl.
  - destruct (div_quotient _ Hd1 Hd1K Hd1a) as (Hdv & Hdv1 & Hdv2 & HdvN).
    fold div0 in Hdv, Hdv1, Hdv2, HdvN.
    assert (is_zero div0 = false) as ->.
    { destruct (fin_nonneg_pos div0 Hdv ltac:(lra)) as (m & e & -> & _). reflexivity. }
    cbn [negb].
    destruct (floor_or_next div0 Hdv Hdv1 Hdv2) as (Hfd & _ & HfdN).
    split; [exact Hfd|]. split; [exact Hmd|].
    intros N HN0 HrN HrKN HNa. apply HfdN; [exact HrN|].
    apply HdvN; auto.
Qed.

Lemma float_floor_div_fin :
  exists fd, float_floor_div a y = Ok fd /\ fin_nonneg fd /\
    (forall N, 0 <= N -> float_value (inject_Z N) -> float_value (inject_Z (K * N)) ->
       (inject_Z (K * N) <= SF2Q a)%Q -> (inject_Z N <= SF2Q fd)%Q).
Proof.
  destruct float_div_mod_fin as (H1 & _ & H3).
  exists (fst (float_div_mod a y)). split; [reflexivity|]. split; assumption.
Qed.

Lemma float_rem_fin :
  exists r, float_rem a y = Ok r /\ fin_nonneg r.
Proof.
  destruct sub_fmod_cases as (Hm & _).
  pose proof (fin_nonneg_not_neg _ Hm) as Hneg.
  unfold float_rem. cbn [is_zero]. eexists. split; [reflexivity|].
  rewrite Hneg. cbn [is_neg Bool.eqb negb].
  destruct (negb (is_zero (fmod a y))); [exact Hm|now left].
Qed.

End DivMod.

(** ** The constants of format_time *)

Lemma py_float_1000 : py_float 1000 = Ok k1000.
Proof. reflexivity. Qed.
Lemma py_float_3600 : py_float 3600 = Ok k3600.
Proof. reflexivity. Qed.
Lemma py_float_60 : py_float 60 = Ok k60.
Proof. reflexivity. Qed.

Lemma divisor_3600 : divisor 7916483719987200 (-41) 3600.
Proof.
  unfold divisor, canonical. repeat split; try lia.
Qed.

Lemma divisor_60 : divisor 8444249301319680 (-47) 60.
Proof.
  unfold divisor, canonical. repeat split; try lia.
Qed.

(** ** format_time on non-negative finite floats *)

(** The milliseconds: [(x - int(x)) * 1000] is finite. *)
Lemma milliseconds_fin (x : float) :
  fin_nonneg x ->
  fin_nonneg (mul (sub x (of_Z (Ztrunc x))) k1000).
Proof.
  intros Hx. destruct (py_int_fin x Hx) as (_ & H0 & H1 & H2 & Hr).
  destruct (of_Z_exact _ H0 Hr) as [Hw Ew].
  rewrite inject_Z_plus in H2. change (inject_Z 1) with 1%Q in H2.
  assert (float_value 1) as Hr1 by (apply (float_value_Z 1); lia).
  destruct (sub_between x (of_Z (Ztrunc x)) 0 1 Hx Hw float_value_zero Hr1) as (Hs & Hs0 & Hs1);
    [rewrite Ew; lra|rewrite Ew; lra|].
  assert (float_value 1000) as Hr1000 by (apply (float_value_Z 1000); lia).
  assert (F2Q 8796093022208000 (-43) == 1000)%Q as E by reflexivity.
  unfold k1000.
  destruct (mul_between (sub x (of_Z (Ztrunc x))) 8796093022208000 (-43) 0 1000
              Hs ltac:(lia) float_value_zero Hr1000) as (H & _); [rewrite E; lra|rewrite E; lra|].
  exact H.
Qed.

(** [format_time] returns on every non-negative finite float, and its
    hours are [int(x // 3600)]. *)
Lemma format_time_fin (x : float) :
  fin_nonneg x ->
  exists minutes secs milliseconds,
    format_time x =
      Ok (format_int 2 (hours_of x) +:+ ":" +:+ format_int 2 minutes +:+ ":" +:+
          format_int 2 secs +:+ "." +:+ format_int 3 milliseconds) /\
    (exists h, float_floor_div x (of_Z 3600) = Ok h /\ py_int h = Ok (hours_of x)) /\
    0 <= hours_of x /\
    (forall N, 0 <= N -> 3600 * N < 2 ^ 53 ->
       (inject_Z (3600 * N) <= SF2Q x)%Q -> N <= hours_of x).
Proof.
  intros Hx. unfold format_time, hours_of. change (of_Z 3600) with k3600.
  destruct (py_int_fin x Hx) as (-> & H0 & _ & _ & Hr). cbn [res_bind].
  destruct (py_float_exact _ H0 Hr) as (-> & _ & _). cbn [res_bind].
  rewrite py_float_1000. cbn [res_bind].
  destruct (py_int_fin _ (milliseconds_fin x Hx)) as (-> & _). cbn [res_bind].
  rewrite py_float_3600. cbn [res_bind].
  destruct (float_floor_div_fin x _ _ _ Hx divisor_3600) as (h & Eh & Hh & HhN).
  change (S754_finite false 7916483719987200 (-41)) with k3600 in Eh.
  rewrite Eh. cbn [res_bind].
  assert (h = fst (float_div_mod x k3600)) as Eh'.
  { unfold float_floor_div in Eh. cbn [is_zero k3600] in Eh. congruence. }
  destruct (py_int_fin h Hh) as (Eint & Hh0 & _ & Hh2 & _). rewrite Eint. cbn [res_bind].
  destruct (float_rem_fin x _ _ _ Hx divisor_3600) as (r & Er & Hr').
  change (S754_finite false 7916483719987200 (-41)) with k3600 in Er.
  rewrite Er. cbn [res_bind].
  rewrite py_float_60. cbn [res_bind].
  destruct (float_floor_div_fin r _ _ _ Hr' divisor_60) as (m & Em & Hm & _).
  change (S754_finite false 8444249301319680 (-47)) with k60 in Em.
  rewrite Em. cbn [res_bind].
  destruct (py_int_fin m Hm) as (-> & _). cbn [res_bind].
  destruct (float_rem_fin x _ _ _ Hx divisor_60) as (s & Es & Hs).
  change (S754_finite false 8444249301319680 (-47)) with k60 in Es.
  rewrite Es. cbn [res_bind].
  destruct (py_int_fin s Hs) as (-> & _). cbn [res_bind].
  exists (Ztrunc m), (Ztrunc s), (Ztrunc (mul (sub x (of_Z (Ztrunc x))) k1000)).
  rewrite <- Eh'. split; [reflexivity|].
  split; [exists h; split; [reflexivity|exact Eint]|].
  split; [exact Hh0|].
  intros N HN HNsmall HNx.
  assert (0 < 2 ^ 53) by (apply Z.pow_pos_nonneg; lia).
  assert (inject_Z N <= SF2Q h)%Q as HNh.
  { apply HhN; auto; apply float_value_Z; lia. }
  assert (inject_Z N < inject_Z (Ztrunc h + 1))%Q as HNlt by lra.
  rewrite <- Zlt_Qlt in HNlt. lia.
Qed.

(** ** Inputs of at least 360000 seconds *)

(** A valid binary64 number is in canonical form. *)
Lemma valid_canonical (m : positive) (e : Z) :
  valid_binary prec emax (S754_finite false m e) = true ->
  canonical (Z.pos m) e /\ e <= 971.
Proof.
  cbn [valid_binary]. unfold bounded, canonical_mantissa. rewrite fexp_eq.
  intros H. apply andb_prop in H as [H1 H2].
  apply Z.eqb_eq in H1. apply Z.leb_le in H2. change (emax - prec) with 971 in H2.
  pose proof (digits2_pos_bounds m) as [Hlo Hhi].
  set (d := Z.pos (digits2_pos m)) in *.
  assert (0 < d) by (unfold d; lia).
  split; [|exact H2]. unfold canonical. split; [lia|]. split.
  - split; [lia|]. assert (2 ^ d <= 2 ^ 53) by (apply Z.pow_le_mono_r; lia). lia.
  - destruct (Z.eq_dec e (-1074)) as [|Hne]; [now left|right].
    assert (d = 53) as Hd by lia. rewrite Hd in Hlo. exact Hlo.
Qed.

(** [360000.0 <= x] on floats gives the inequality of the values. *)
Lemma at_least_360000 (x : float) :
  valid_binary prec emax x = true -> is_finite x = true ->
  leb (of_Z 360000) x = true ->
  fin_nonneg x /\ (inject_Z (3600 * 100) <= SF2Q x)%Q.
Proof.
  intros Hv Hf Hle.
  change (of_Z 360000) with (S754_finite false 6184752906240000 (-34)) in Hle.
  destruct x as [s|s| |s m e]; try discriminate Hf.
  - destruct s; discriminate Hle.
  - destruct s; [discriminate Hle|].
    destruct (valid_canonical m e Hv) as [Hc He].
    split; [right; exists m, e; auto|].
    cbn [SF2Q cond_Zopp].
    assert (inject_Z (3600 * 100) == F2Q 6184752906240000 (-34))%Q as -> by reflexivity.
    unfold leb, SFleb in Hle. cbn [SFcompare] in Hle.
    destruct (Z.compare_spec (-34) e) as [<-|Hlt|Hgt]; try discriminate Hle.
    + apply F2Q_le. fold (Pos.compare 6184752906240000 m) in Hle.
      destruct (Pos.compare_spec 6184752906240000 m); try discriminate Hle; lia.
    + destruct Hc as (_ & _ & [->|Hbig]); [lia|].
      apply Qle_trans with (F2Q (2 ^ 52) (-33)); [vm_compute; discriminate|].
      apply Qle_trans with (F2Q (2 ^ 52) e).
      * rewrite !F2Q_pow by lia. apply pow2_le. lia.
      * now apply F2Q_le.
Qed.

(** ** The quotient is exact below 2^53 *)

Lemma Ztrunc_unique (x : float) (q : Z) :
  fin_nonneg x -> (SF2Q x == inject_Z q)%Q -> Ztrunc x = q.
Proof.
  intros Hx E. destruct (py_int_fin x Hx) as (_ & _ & H1 & H2 & _).
  rewrite E in H1, H2. rewrite <- Zle_Qle in H1. rewrite <- Zlt_Qlt in H2. lia.
Qed.

(** Below [2^53] no operation of [_float_div_mod] rounds: the quotient
    is the exact floor of [a / K]. *)
Lemma float_div_mod_exact (a : float) (my : positive) (ey : Z) (K : Z) :
  fin_nonneg a -> divisor my ey K -> (SF2Q a < inject_Z (2 ^ 53))%Q ->
  let h := Ztrunc (fst (float_div_mod a (S754_finite false my ey))) in
  (inject_Z h * inject_Z K <= SF2Q a)%Q /\ (SF2Q a < (inject_Z h + 1) * inject_Z K)%Q.
Proof.
  intros Ha Hy Hsmall. set (y := S754_finite false my ey).
  destruct Hy as (Hcy & Hey & HK & HK2).
  destruct (fmod_fin a my ey Ha Hcy Hey) as (Hm & Hlt & q & Hq & Hdm).
  fold y in Hm, Hlt, Hdm. cbn [SF2Q cond_Zopp y] in Hlt, Hdm. rewrite HK in Hlt, Hdm.
  pose proof (fin_nonneg_nonneg _ Hm) as Hm0.
  pose proof (fin_nonneg_not_neg _ Hm) as Hneg.
  assert (2 <= inject_Z K)%Q as HK2q.
  { change 2%Q with (inject_Z 2). rewrite <- Zle_Qle. lia. }
  assert (0 <= inject_Z q)%Q as Hq0.
  { change 0%Q with (inject_Z 0). rewrite <- Zle_Qle. lia. }
  assert (0 <= q * K < 2 ^ 53) as HqK.
  { split; [nia|]. rewrite Zlt_Qlt, inject_Z_mult. nra. }
  assert (q < 2 ^ 53) as Hqs by nia.
  (* it is enough that the quotient is q *)
  assert (Ztrunc (fst (float_div_mod a y)) = q) as ->.
  2:{ split; nra. }
  unfold float_div_mod.
  set (mod0 := fmod a y) in *. set (div0 := div (sub a mod0) y).
  assert ((if negb (is_zero mod0)
           then if negb (Bool.eqb (is_neg y) (is_neg mod0))
                then (add mod0 y, sub div0 one) else (mod0, div0)
           else (zero_with_sign_of y, div0)) =
          (if negb (is_zero mod0) then mod0 else S754_zero false, div0)) as ->.
  { rewrite Hneg. cbn [is_neg y Bool.eqb negb]. now destruct (negb (is_zero mod0)). }
  cbn [fst].
  assert (float_value (inject_Z (q * K))) as HrqK by (apply float_value_Z; lia).
  destruct (sub_between a mod0 (inject_Z (q * K)) (inject_Z (q * K)) Ha Hm HrqK HrqK)
    as (Hd1 & Hd1a & Hd1b); [rewrite inject_Z_mult; lra|rewrite inject_Z_mult; lra|].
  assert (SF2Q (sub a mod0) == inject_Z q * inject_Z K)%Q as Ed1
    by (rewrite <- inject_Z_mult; lra).
  destruct (Z.eq_dec q 0) as [->|Hqne].
  - change (inject_Z 0) with 0%Q in Ed1.
    assert (sub a mod0 = S754_zero false) as Hz by (apply fin_nonneg_zero; [exact Hd1|lra]).
    assert (div0 = S754_zero false) as -> by (unfold div0; rewrite Hz; reflexivity).
    cbn [is_zero negb]. unfold zero_with_sign_of.
    replace (sign_bit (div a y)) with false by (symmetry; apply sign_bit_div; exact Ha).
    reflexivity.
  - assert (1 <= inject_Z q)%Q as Hq1.
    { change 1%Q with (inject_Z 1). rewrite <- Zle_Qle. lia. }
    destruct (fin_nonneg_pos _ Hd1 ltac:(nra)) as (m1 & e1 & Em1 & Hc1 & He1).
    assert (float_value (inject_Z q)) as Hrq by (apply float_value_Z; lia).
    assert (fin_nonneg div0 /\ (SF2Q div0 == inject_Z q)%Q) as [Hdv Edv].
    { unfold div0. rewrite Em1. rewrite Em1 in Ed1. cbn [SF2Q cond_Zopp] in Ed1.
      destruct (div_between m1 e1 my ey (inject_Z q) (inject_Z q) Hrq Hrq)
        as (H1 & H2 & H3); [rewrite HK; nra|rewrite HK; nra|rewrite HK; nra|].
      split; [exact H1|]. unfold y. lra. }
    assert (is_zero div0 = false) as ->.
    { destruct (fin_nonneg_pos div0 Hdv ltac:(lra)) as (m & e & -> & _). reflexivity. }
    cbn [negb].
    destruct (floor_fin div0 Hdv) as (Hfl & Efl).
    rewrite (Ztrunc_unique div0 q Hdv Edv) in Efl.
    destruct (sub_between div0 (floor div0) 0 0 Hdv Hfl float_value_zero float_value_zero)
      as (Hs & Hs0 & Hs1); [lra|lra|].
    assert (sub div0 (floor div0) = S754_zero false) as ->
      by (apply fin_nonneg_zero; [exact Hs|lra]).
    change (ltb half (S754_zero false)) with false. cbv iota.
    now apply Ztrunc_unique.
Qed.

(** ** Width of the hours field *)

Lemma length_append (s1 s2 : string) :
  String.length (s1 +:+ s2) = (String.length s1 + String.length s2)%nat.
Proof. induction s1 as [|c s1 IH]; simpl; [reflexivity|now rewrite IH]. Qed.

Lemma dec_digits_length (fuel : nat) (n : Z) (acc : string) :
  (String.length acc < String.length (dec_digits fuel n acc))%nat.
Proof.
  revert n acc. induction fuel as [|fuel IH]; intros n acc; simpl.
  - lia.
  - destruct (n <? 10); simpl; [lia|].
    specialize (IH (n / 10) (String (digit_char (n mod 10)) acc)). simpl in IH. lia.
Qed.

(** An integer of at least 100 takes more than two characters. *)
Lemma format_int_wide (n : Z) : 100 <= n -> (2 < String.length (format_int 2 n))%nat.
Proof.
  intros Hn. unfold format_int. rewrite !length_append.
  replace (Z.abs n) with n by lia. unfold dec_of_nonneg.
  assert (6 <= Z.log2 n) as Hlog by (change 6 with (Z.log2 100); now apply Z.log2_le_mono).
  destruct (Z.to_nat (Z.log2 n)) as [|[|fuel]] eqn:E; try lia.
  cbn [dec_digits].
  destruct (Z.ltb_spec n 10) as [|_]; [lia|].
  assert (10 <= n / 10) by (apply Z.div_le_lower_bound; lia).
  destruct (Z.ltb_spec (n / 10) 10) as [|_]; [lia|].
  pose proof (dec_digits_length fuel (n / 10 / 10)
                (String (digit_char (n / 10 mod 10)) (String (digit_char (n mod 10)) ""))) as H1.
  simpl in H1. lia.
Qed.

Lemma format_time_returns (x : float) :
  fin_nonneg x -> returns (format_time x) = true.
Proof.
  intros Hx. destruct (format_time_fin x Hx) as (mi & se & ms & E & _).
  now rewrite E.
Qed.

(** ** The remainder, the fraction and the fields of format_time *)

Lemma float_rem_spec (a : float) (my : positive) (ey : Z) (K : Z) :
  fin_nonneg a -> divisor my ey K ->
  exists r, float_rem a (S754_finite false my ey) = Ok r /\ fin_nonneg r /\
    (SF2Q r < inject_Z K)%Q /\
    exists q, 0 <= q /\ (SF2Q a == inject_Z q * inject_Z K + SF2Q r)%Q.
Proof.
  intros Ha (Hcy & Hey & HK & HK2).
  destruct (fmod_fin a my ey Ha Hcy Hey) as (Hm & Hlt & q & Hq & Hdm).
  cbn [SF2Q cond_Zopp] in Hlt, Hdm. rewrite HK in Hlt, Hdm.
  pose proof (fin_nonneg_not_neg _ Hm) as Hneg.
  unfold float_rem. cbn [is_zero]. eexists. split; [reflexivity|].
  rewrite Hneg. cbn [is_neg Bool.eqb negb].
  destruct (fmod a (S754_finite false my ey)) as [s|s| |s m e] eqn:E; cbn [is_zero negb].
  - split; [now left|]. split; [exact Hlt|]. exists q. split; [exact Hq|].
    exact Hdm.
  - split; [exact Hm|]. split; [exact Hlt|]. exists q. split; [exact Hq|exact Hdm].
  - split; [exact Hm|]. split; [exact Hlt|]. exists q. split; [exact Hq|exact Hdm].
  - split; [exact Hm|]. split; [exact Hlt|]. exists q. split; [exact Hq|exact Hdm].
Qed.

(** ** The fraction of a second *)

Lemma frac_exact (x : float) :
  fin_nonneg x ->
  fin_nonneg (sub x (of_Z (Ztrunc x))) /\
  (SF2Q (sub x (of_Z (Ztrunc x))) == SF2Q x - inject_Z (Ztrunc x))%Q.
Proof.
  intros Hx. destruct (py_int_fin x Hx) as (_ & H0 & H1 & H2 & Hr).
  destruct (of_Z_exact _ H0 Hr) as [Hw Ew].
  assert (float_value (SF2Q x - inject_Z (Ztrunc x))) as Hv.
  { destruct Hx as [->|(m & e & -> & Hc & He)].
    - apply (float_value_eq 0); [|apply float_value_zero].
      unfold Ztrunc. simpl. reflexivity.
    - unfold Ztrunc. cbn [trunc cond_Zopp SF2Q]. unfold int_part.
      assert (forall z, inject_Z z == F2Q z 0)%Q as Hinj.
      { intros z. unfold F2Q. change (2 ^ 0)%Q with 1%Q. ring. }
      destruct (Z.leb_spec 0 e) as [Hpos|Hneg].
      + apply (float_value_eq 0); [|apply float_value_zero].
        rewrite (Hinj (Z.pos m * 2 ^ e)), (F2Q_shift (Z.pos m) 0 e) by lia.
        replace (0 + e) with e by lia. ring.
      + assert (0 < 2 ^ (- e)) as Hp by (apply Z.pow_pos_nonneg; lia).
        pose proof (Z.div_mod (Z.pos m) (2 ^ (- e)) ltac:(lia)) as Hdm.
        pose proof (Z.mod_pos_bound (Z.pos m) (2 ^ (- e)) Hp) as Hmb.
        destruct Hc as (Hc1 & [_ Hc2] & _).
        exists (Z.pos m mod 2 ^ (- e)), e. split; [unfold representable|split; [exact He|]].
        * assert (0 <= Z.pos m / 2 ^ (- e)) by (apply Z.div_pos; lia). nia.
        * rewrite (Hinj (Z.pos m / 2 ^ (- e))).
          rewrite (F2Q_align (Z.pos m / 2 ^ (- e)) 0 e) by lia.
          replace (0 - e) with (- e) by lia. rewrite <- F2Q_sub.
          replace (Z.pos m - Z.pos m / 2 ^ (- e) * 2 ^ (- e)) with (Z.pos m mod 2 ^ (- e))
            by lia.
          reflexivity. }
  destruct (sub_between x (of_Z (Ztrunc x)) _ _ Hx Hw Hv Hv) as (Hs & Hs0 & Hs1);
    [rewrite Ew; lra|rewrite Ew; lra|].
  split; [exact Hs|]. apply Qle_antisym; lra.
Qed.

(** A canonical number below 1 is at most [1 - 2^-52], or it is [1 - 2^-53]. *)
Lemma below_one (m : positive) (e : Z) :
  canonical (Z.pos m) e -> (F2Q (Z.pos m) e < 1)%Q ->
  (m = 9007199254740991%positive /\ e = -53) \/
  (F2Q (Z.pos m) e <= F2Q 9007199254740990 (-53))%Q.
Proof.
  intros (He & [_ Hm] & Hc) Hlt.
  assert (F2Q (2 ^ 53) (-53) == 1)%Q as E1 by reflexivity.
  destruct (Z.lt_trichotomy e (-53)) as [Hl|[->|Hg]].
  - right. apply Qle_trans with (F2Q (2 ^ 53) e); [apply F2Q_le; lia|].
    apply Qle_trans with (F2Q (2 ^ 53) (-54)).
    + rewrite !F2Q_pow by lia. apply pow2_le. lia.
    + vm_compute. discriminate.
  - destruct (Z.eq_dec (Z.pos m) 9007199254740991) as [E|Hne].
    + left. split; [congruence|reflexivity].
    + right. apply F2Q_le. change (2 ^ 53) with 9007199254740992 in Hm. lia.
  - exfalso. destruct Hc as [->|Hbig]; [lia|].
    assert (F2Q (2 ^ 52) (-52) <= F2Q (Z.pos m) e)%Q.
    { apply Qle_trans with (F2Q (2 ^ 52) e).
      - rewrite !F2Q_pow by lia. apply pow2_le. lia.
      - now apply F2Q_le. }
    assert (F2Q (2 ^ 52) (-52) == 1)%Q as E2 by reflexivity. lra.
Qed.

Lemma milliseconds_range (d : float) :
  fin_nonneg d -> (SF2Q d < 1)%Q ->
  fin_nonneg (mul d k1000) /\
  0 <= Ztrunc (mul d k1000) <= 999 /\
  (inject_Z (Ztrunc (mul d k1000)) - 1 < 1000 * SF2Q d)%Q /\
  (1000 * SF2Q d < inject_Z (Ztrunc (mul d k1000)) + 1)%Q.
Proof.
  intros Hd Hlt.
  pose proof (fin_nonneg_nonneg _ Hd) as Hd0.
  assert (F2Q 8796093022208000 (-43) == 1000)%Q as E by reflexivity.
  set (v := (1000 * SF2Q d)%Q).
  assert (0 <= v)%Q as Hv0 by (unfold v; lra).
  assert (v < 1000)%Q as Hv1 by (unfold v; lra).
  pose proof (Qfloor_le v) as Hfl. pose proof (Qle_ceiling v) as Hce.
  pose proof (Qlt_floor v) as Hfl'. pose proof (Qceiling_lt v) as Hce'.
  assert (0 <= Qfloor v) as Hf0.
  { assert (inject_Z 0 <= v)%Q as H by (change (inject_Z 0) with 0%Q; lra).
    apply Qfloor_resp_le in H. now rewrite Qfloor_Z in H. }
  assert (Qceiling v <= 1000) as Hc1.
  { assert (v <= inject_Z 1000)%Q as H by (change (inject_Z 1000) with 1000%Q; lra).
    apply Qceiling_resp_le in H. now rewrite Qceiling_Z in H. }
  pose proof (Qle_floor_ceiling v) as Hfc. rewrite <- Zle_Qle in Hfc.
  assert (0 < 2 ^ 53) as Hp53 by (apply Z.pow_pos_nonneg; lia).
  assert (1000 < 2 ^ 53) as H1000 by (change (2 ^ 53) with 9007199254740992; lia).
  unfold k1000.
  assert (float_value (inject_Z (Qfloor v))) as Hvf by (apply float_value_Z; lia).
  assert (float_value (inject_Z (Qceiling v))) as Hvc by (apply float_value_Z; lia).
  destruct (mul_between d 8796093022208000 (-43) (inject_Z (Qfloor v)) (inject_Z (Qceiling v))
              Hd ltac:(lia) Hvf Hvc)
    as (Hm & Hlo & Hhi); [rewrite E; unfold v in *; lra|rewrite E; unfold v in *; lra|].
  set (p := mul d (S754_finite false 8796093022208000 (-43))) in *.
  destruct (py_int_fin p Hm) as (_ & Ht0 & Ht1 & Ht2 & _).
  rewrite inject_Z_plus in Ht2. change (inject_Z 1) with 1%Q in Ht2.
  assert (Qfloor v <= Ztrunc p) as Hlow.
  { assert (inject_Z (Qfloor v) < inject_Z (Ztrunc p + 1))%Q as H
      by (rewrite inject_Z_plus; change (inject_Z 1) with 1%Q; lra).
    rewrite <- Zlt_Qlt in H. lia. }
  assert (Ztrunc p <= Qceiling v) as Hupp.
  { rewrite Zle_Qle. lra. }
  assert (SF2Q p < 1000)%Q as Hp1000.
  { destruct Hd as [Ez|(m & e & Ed & Hc & He)].
    - unfold p. rewrite Ez. simpl. lra.
    - rewrite Ed in Hlt. cbn [SF2Q cond_Zopp] in Hlt.
      destruct (below_one m e Hc Hlt) as [[-> ->]|Hle].
      + unfold p. rewrite Ed. vm_compute. reflexivity.
      + assert (float_value (F2Q 8796093022207999 (-43))) as Hu.
        { exists 8796093022207999, (-43). unfold representable.
          change (2 ^ 53) with 9007199254740992.
          repeat split; first [lia | reflexivity]. }
        assert (1000 * F2Q 9007199254740990 (-53) <= F2Q 8796093022207999 (-43))%Q as Hnum
          by (vm_compute; discriminate).
        assert (F2Q 8796093022207999 (-43) < 1000)%Q as Hnum2 by (vm_compute; reflexivity).
        destruct (mul_between (S754_finite false m e) 8796093022208000 (-43) 0
                    (F2Q 8796093022207999 (-43))
                    ltac:(right; eauto) ltac:(lia) float_value_zero Hu)
          as (_ & _ & H3).
        * rewrite E. cbn [SF2Q cond_Zopp]. pose proof (F2Q_nonneg (Z.pos m) e ltac:(lia)). lra.
        * rewrite E. cbn [SF2Q cond_Zopp]. lra.
        * unfold p. rewrite Ed. lra. }
  split; [exact Hm|]. split.
  - split; [exact Ht0|].
    assert (inject_Z (Ztrunc p) < inject_Z 1000)%Q as H
      by (change (inject_Z 1000) with 1000%Q; lra).
    rewrite <- Zlt_Qlt in H. lia.
  - assert (inject_Z (Qceiling v - 1) == inject_Z (Qceiling v) - 1)%Q as Hce2
      by (unfold Z.sub; rewrite inject_Z_plus; reflexivity).
    rewrite Hce2 in Hce'. rewrite inject_Z_plus in Hfl'.
    change (inject_Z 1) with 1%Q in Hfl'.
    rewrite Zle_Qle in Hlow, Hupp. fold v. split; lra.
Qed.

Lemma length_zeros (k : nat) : String.length (zeros k) = k.
Proof. induction k; simpl; auto. Qed.

(** ** The integer part of a remainder *)

Lemma Ztrunc_rem (x r : float) (q K : Z) :
  fin_nonneg x -> fin_nonneg r -> 0 < K -> 0 <= q ->
  (SF2Q r < inject_Z K)%Q -> (SF2Q x == inject_Z q * inject_Z K + SF2Q r)%Q ->
  Ztrunc r = Ztrunc x mod K.
Proof.
  intros Hx Hr HK Hq Hlt E.
  destruct (py_int_fin x Hx) as (_ & Hx0 & Hx1 & Hx2 & _).
  destruct (py_int_fin r Hr) as (_ & Hr0 & Hr1 & Hr2 & _).
  set (T := Ztrunc x) in *. set (t := Ztrunc r) in *.
  assert (inject_Z T < inject_Z (q * K + t + 1))%Q as H1.
  { rewrite inject_Z_plus in Hr2. rewrite !inject_Z_plus, inject_Z_mult. lra. }
  assert (inject_Z (q * K + t) < inject_Z (T + 1))%Q as H2.
  { rewrite inject_Z_plus in Hx2. rewrite !inject_Z_plus, inject_Z_mult. lra. }
  assert (inject_Z t < inject_Z K)%Q as H3 by lra.
  rewrite <- Zlt_Qlt in H1, H2, H3.
  apply (Z.mod_unique T K q t); lia.
Qed.

Lemma Ztrunc_quot (r : float) (h K : Z) :
  fin_nonneg r -> 0 < K ->
  (inject_Z h * inject_Z K <= SF2Q r)%Q -> (SF2Q r < (inject_Z h + 1) * inject_Z K)%Q ->
  h = Ztrunc r / K.
Proof.
  intros Hr HK H1 H2.
  destruct (py_int_fin r Hr) as (_ & Hr0 & Hr1 & Hr2 & _).
  set (t := Ztrunc r) in *.
  assert (inject_Z (h * K) < inject_Z (t + 1))%Q as H3.
  { rewrite inject_Z_mult. lra. }
  assert (inject_Z t < inject_Z ((h + 1) * K))%Q as H4.
  { rewrite inject_Z_mult, inject_Z_plus. change (inject_Z 1) with 1%Q. lra. }
  rewrite <- Zlt_Qlt in H3, H4.
  apply (Z.div_unique_pos t K h (t - h * K)); lia.
Qed.

(** ** The four fields of format_time *)

Lemma format_time_fields_fin (x : float) :
  fin_nonneg x ->
  exists milliseconds,
    format_time x =
      Ok (format_int 2 (hours_of x) +:+ ":" +:+
          format_int 2 (Ztrunc x mod 3600 / 60) +:+ ":" +:+
          format_int 2 (Ztrunc x mod 60) +:+ "." +:+ format_int 3 milliseconds) /\
    0 <= hours_of x /\
    0 <= milliseconds <= 999 /\
    (inject_Z milliseconds - 1 < 1000 * (SF2Q x - inject_Z (Ztrunc x)))%Q /\
    (1000 * (SF2Q x - inject_Z (Ztrunc x)) < inject_Z milliseconds + 1)%Q /\
    ((SF2Q x < inject_Z (2 ^ 53))%Q -> hours_of x = Ztrunc x / 3600).
Proof.
  intros Hx. unfold format_time, hours_of. change (of_Z 3600) with k3600.
  destruct (py_int_fin x Hx) as (Ex & H0 & Hx1 & Hx2 & Hr). rewrite Ex. cbn [res_bind].
  destruct (py_float_exact _ H0 Hr) as (-> & _ & _). cbn [res_bind].
  rewrite py_float_1000. cbn [res_bind].
  destruct (frac_exact x Hx) as (Hd & Ed).
  rewrite inject_Z_plus in Hx2. change (inject_Z 1) with 1%Q in Hx2.
  destruct (milliseconds_range _ Hd ltac:(lra)) as (Hms & Hms1 & Hms2 & Hms3).
  destruct (py_int_fin _ Hms) as (-> & _). cbn [res_bind].
  rewrite py_float_3600. cbn [res_bind].
  destruct (float_floor_div_fin x _ _ _ Hx divisor_3600) as (h & Eh & Hh & HhN).
  change (S754_finite false 7916483719987200 (-41)) with k3600 in Eh.
  rewrite Eh. cbn [res_bind].
  assert (h = fst (float_div_mod x k3600)) as Eh'.
  { unfold float_floor_div in Eh. cbn [is_zero k3600] in Eh. congruence. }
  destruct (py_int_fin h Hh) as (Eint & Hh0 & _). rewrite Eint. cbn [res_bind].
  destruct (float_rem_spec x _ _ _ Hx divisor_3600) as (r & Er & Hr' & Hr3600 & q & Hq & Eq).
  change (S754_finite false 7916483719987200 (-41)) with k3600 in Er.
  rewrite Er. cbn [res_bind].
  rewrite py_float_60. cbn [res_bind].
  destruct (float_floor_div_fin r _ _ _ Hr' divisor_60) as (m & Em & Hm & _).
  change (S754_finite false 8444249301319680 (-47)) with k60 in Em.
  rewrite Em. cbn [res_bind].
  assert (m = fst (float_div_mod r k60)) as Em'.
  { unfold float_floor_div in Em. cbn [is_zero k60] in Em. congruence. }
  destruct (py_int_fin m Hm) as (-> & _). cbn [res_bind].
  destruct (float_rem_spec x _ _ _ Hx divisor_60) as (s & Es & Hs & Hs60 & q' & Hq' & Eq').
  change (S754_finite false 8444249301319680 (-47)) with k60 in Es.
  rewrite Es. cbn [res_bind].
  destruct (py_int_fin s Hs) as (-> & _). cbn [res_bind].
  assert (Ztrunc s = Ztrunc x mod 60) as ->
    by (apply (Ztrunc_rem x s q' 60); auto; lia).
  assert (Ztrunc r = Ztrunc x mod 3600) as Etr
    by (apply (Ztrunc_rem x r q 3600); auto; lia).
  assert (Ztrunc m = Ztrunc x mod 3600 / 60) as ->.
  { rewrite <- Etr, Em'. apply Ztrunc_quot; [exact Hr'|lia| |].
    - apply (float_div_mod_exact r _ _ 60 Hr' divisor_60).
      apply Qlt_trans with (inject_Z 3600); [exact Hr3600|].
      rewrite <- Zlt_Qlt. change (2 ^ 53) with 9007199254740992. lia.
    - apply (float_div_mod_exact r _ _ 60 Hr' divisor_60).
      apply Qlt_trans with (inject_Z 3600); [exact Hr3600|].
      rewrite <- Zlt_Qlt. change (2 ^ 53) with 9007199254740992. lia. }
  exists (Ztrunc (mul (sub x (of_Z (Ztrunc x))) k1000)).
  rewrite <- Eh'. split; [reflexivity|]. split; [exact Hh0|]. split; [exact Hms1|].
  split; [rewrite <- Ed; exact Hms2|]. split; [rewrite <- Ed; exact Hms3|].
  intros Hsmall. rewrite Eh'. apply Ztrunc_quot; [exact Hx|lia| |];
    apply (float_div_mod_exact x _ _ 3600 Hx divisor_3600 Hsmall).
Qed.

(** ** The quotient from above *)

Section QuotientAbove.

Variables (a : float) (my : positive) (ey : Z) (K : Z).
Hypothesis Ha : fin_nonneg a.
Hypothesis Hy : divisor my ey K.

Local Abbreviation y := (S754_finite false my ey).

Lemma floor_or_next_upper (dv : float) (N : Z) :
  fin_nonneg dv -> float_value (inject_Z N) -> (SF2Q dv <= inject_Z N)%Q ->
  (SF2Q (if ltb half (sub dv (floor dv)) then add (floor dv) one else floor dv)
   <= inject_Z N)%Q.
Proof.
  intros Hd HrN HN.
  destruct (floor_fin dv Hd) as (Hfl & Efl).
  destruct (py_int_fin dv Hd) as (_ & HT0 & HT1 & HT2 & _).
  assert (Ztrunc dv <= N) as HTN by (rewrite Zle_Qle; lra).
  destruct (Z.eq_dec (Ztrunc dv) N) as [E|Hne].
  - rewrite E in HT1, Efl.
    assert (SF2Q dv == SF2Q (floor dv))%Q as Eq by (apply Qle_antisym; lra).
    destruct (sub_between dv (floor dv) 0 0 Hd Hfl float_value_zero float_value_zero)
      as (Hs & Hs0 & Hs1); [lra|lra|].
    rewrite (fin_nonneg_zero _ Hs) by lra.
    change (ltb half (S754_zero false)) with false. cbv iota. rewrite Efl. apply Qle_refl.
  - destruct (ltb half (sub dv (floor dv))).
    + destruct one_value as [Ho1 Ho2].
      assert (inject_Z (Ztrunc dv + 1) <= inject_Z N)%Q as H by (rewrite <- Zle_Qle; lia).
      rewrite inject_Z_plus in H. change (inject_Z 1) with 1%Q in H.
      assert (0 <= inject_Z (Ztrunc dv))%Q as HT0q.
      { change 0%Q with (inject_Z 0). rewrite <- Zle_Qle. exact HT0. }
      destruct (add_between (floor dv) one 0 (inject_Z N) Hfl Ho1 float_value_zero HrN)
        as (_ & _ & H3); [rewrite Efl, Ho2; lra|rewrite Efl, Ho2; lra|exact H3].
    + rewrite Efl. rewrite <- Zle_Qle. exact HTN.
Qed.

(** The quotient of [_float_div_mod] is at most [N] when [a <= K * N]. *)
Lemma float_div_mod_upper (N : Z) :
  0 <= N -> float_value (inject_Z N) -> (SF2Q a <= inject_Z (K * N))%Q ->
  (SF2Q (fst (float_div_mod a y)) <= inject_Z N)%Q.
Proof.
  intros HN0 HrN HaN.
  assert (0 <= inject_Z N)%Q as HN0q.
  { change 0%Q with (inject_Z 0). rewrite <- Zle_Qle. lia. }
  destruct (sub_fmod_cases a my ey K Ha Hy) as (Hm & HmK & Hma & Hcases).
  pose proof (fin_nonneg_not_neg _ Hm) as Hneg.
  unfold float_div_mod.
  set (mod0 := fmod a y) in *. set (div0 := div (sub a mod0) y).
  assert ((if negb (is_zero mod0)
           then if negb (Bool.eqb (is_neg y) (is_neg mod0))
                then (add mod0 y, sub div0 one) else (mod0, div0)
           else (zero_with_sign_of y, div0)) =
          (if negb (is_zero mod0) then mod0 else S754_zero false, div0)) as ->.
  { rewrite Hneg. cbn [is_neg Bool.eqb negb]. now destruct (negb (is_zero mod0)). }
  cbn [fst snd].
  destruct Hcases as [[Hz HaK]|(Hd1 & Hd1K & Hd1a & _)].
  - assert (div0 = S754_zero false) as -> by (unfold div0; rewrite Hz; reflexivity).
    cbn [is_zero negb]. unfold zero_with_sign_of.
    replace (sign_bit (div a y)) with false by (symmetry; apply sign_bit_div; exact Ha).
    exact HN0q.
  - destruct (div_quotient a my ey K Ha Hy _ Hd1 Hd1K Hd1a) as (Hdv & Hdv1 & _ & _).
    fold div0 in Hdv, Hdv1.
    assert (is_zero div0 = false) as ->.
    { destruct (fin_nonneg_pos div0 Hdv ltac:(lra)) as (m & e & -> & _). reflexivity. }
    cbn [negb]. apply floor_or_next_upper; [exact Hdv|exact HrN|].
    destruct Hy as (Hcy & Hey & HK & HK2).
    assert (2 <= inject_Z K)%Q as HK2q.
    { change 2%Q with (inject_Z 2). rewrite <- Zle_Qle. lia. }
    rewrite inject_Z_mult in HaN.
    destruct (fin_nonneg_pos _ Hd1 ltac:(lra)) as (m1 & e1 & E1 & Hc1 & He1).
    unfold div0. rewrite E1 in *. cbn [SF2Q cond_Zopp] in *.
    assert (float_value 1) as Hr1 by (apply (float_value_Z 1); lia).
    assert (1 <= inject_Z N)%Q as HN1 by nra.
    destruct (div_between m1 e1 my ey 1 (inject_Z N) Hr1 HrN) as (_ & _ & H3);
      [rewrite HK; lra|rewrite HK; lra|rewrite HK; nra|exact H3].
Qed.

End QuotientAbove.

(** [hours_of x] lies between the integers [N] of the format whose
    multiple [3600 * N] brackets [x]. *)
Lemma hours_between (x : float) :
  fin_nonneg x ->
  (forall N, 0 <= N -> float_value (inject_Z N) -> float_value (inject_Z (3600 * N)) ->
     (inject_Z (3600 * N) <= SF2Q x)%Q -> N <= hours_of x) /\
  (forall N, 0 <= N -> float_value (inject_Z N) ->
     (SF2Q x <= inject_Z (3600 * N))%Q -> hours_of x <= N).
Proof.
  intros Hx. unfold hours_of. change (of_Z 3600) with k3600.
  destruct (float_div_mod_fin x _ _ _ Hx divisor_3600) as (Hh & _ & HhN).
  change (S754_finite false 7916483719987200 (-41)) with k3600 in Hh, HhN.
  destruct (py_int_fin _ Hh) as (_ & Hh0 & Hh1 & Hh2 & _).
  split.
  - intros N HN HrN HrKN HNx.
    assert (inject_Z N < inject_Z (Ztrunc (fst (float_div_mod x k3600)) + 1))%Q as H
      by (specialize (HhN N HN HrN HrKN HNx); lra).
    rewrite <- Zlt_Qlt in H. lia.
  - intros N HN HrN HNx.
    pose proof (float_div_mod_upper x _ _ _ Hx divisor_3600 N HN HrN HNx) as H.
    change (S754_finite false 7916483719987200 (-41)) with k3600 in H.
    rewrite Zle_Qle. lra.
Qed.

(** ** The decimal numeral of an integer *)

Lemma append_cons (a : ascii) (r s : string) : String a r +:+ s = String a (r +:+ s).
Proof. reflexivity. Qed.

Lemma append_nil (s : string) : "" +:+ s = s.
Proof. reflexivity. Qed.

Lemma digit_of_digit_char (d : Z) : 0 <= d <= 9 -> digit_of (digit_char d) = Some d.
Proof.
  intros H.
  assert (d = 0 \/ d = 1 \/ d = 2 \/ d = 3 \/ d = 4 \/ d = 5 \/ d = 6 \/ d = 7 \/ d = 8 \/
          d = 9) as Hd by lia.
  repeat (destruct Hd as [->|Hd]; [reflexivity|]). subst d. reflexivity.
Qed.

Lemma digit_char_zero (d : Z) : 1 <= d <= 9 -> digit_char d <> "0"%char.
Proof.
  intros H.
  assert (d = 1 \/ d = 2 \/ d = 3 \/ d = 4 \/ d = 5 \/ d = 6 \/ d = 7 \/ d = 8 \/
          d = 9) as Hd by lia.
  repeat (destruct Hd as [->|Hd]; [discriminate|]). subst d. discriminate.
Qed.

(** With enough fuel, [dec_digits] puts in front of [rest] digits that
    denote [n]. *)
Lemma decimal_from_dec_digits (fuel : nat) :
  forall n rest acc, 0 <= n < 2 ^ (Z.of_nat fuel + 1) ->
  exists k, 0 <= k /\
    decimal_from acc (dec_digits fuel n rest) = decimal_from (acc * 10 ^ k + n) rest.
Proof.
  induction fuel as [|fuel IH]; intros n rest acc Hn.
  - change (2 ^ (Z.of_nat 0 + 1)) with 2 in Hn. exists 1. split; [lia|].
    cbn [dec_digits decimal_from]. rewrite Z.mod_small by lia.
    rewrite digit_of_digit_char by lia. f_equal. lia.
  - cbn [dec_digits]. destruct (Z.ltb_spec n 10) as [Hlt|Hge].
    + exists 1. split; [lia|]. cbn [decimal_from]. rewrite Z.mod_small by lia.
      rewrite digit_of_digit_char by lia. f_equal. lia.
    + assert (0 <= n / 10 < 2 ^ (Z.of_nat fuel + 1)) as Hq.
      { split; [apply Z.div_pos; lia|]. apply Z.div_lt_upper_bound; [lia|].
        replace (Z.of_nat (S fuel) + 1) with (Z.succ (Z.of_nat fuel + 1)) in Hn by lia.
        rewrite Z.pow_succ_r in Hn by lia. lia. }
      destruct (IH (n / 10) (String (digit_char (n mod 10)) rest) acc Hq) as (k & Hk & E).
      exists (k + 1). split; [lia|]. rewrite E. cbn [decimal_from].
      pose proof (Z.mod_pos_bound n 10 ltac:(lia)) as Hm.
      rewrite digit_of_digit_char by lia. f_equal.
      rewrite Z.pow_add_r by lia. change (10 ^ 1) with 10.
      pose proof (Z.div_mod n 10 ltac:(lia)). lia.
Qed.

Lemma log2_fuel (n : Z) : 0 <= n -> n < 2 ^ (Z.of_nat (Z.to_nat (Z.log2 n)) + 1).
Proof.
  intros Hn. rewrite Z2Nat.id by apply Z.log2_nonneg.
  destruct (Z.eq_dec n 0) as [->|Hne]; [reflexivity|].
  replace (Z.log2 n + 1) with (Z.succ (Z.log2 n)) by lia.
  apply Z.log2_spec. lia.
Qed.

Lemma decimal_from_dec_of_nonneg (n : Z) :
  0 <= n -> decimal_from 0 (dec_of_nonneg n) = Some n.
Proof.
  intros Hn. unfold dec_of_nonneg.
  destruct (decimal_from_dec_digits (Z.to_nat (Z.log2 n)) n "" 0) as (k & _ & ->).
  - split; [exact Hn|now apply log2_fuel].
  - reflexivity.
Qed.

Lemma decimal_from_zeros (k : nat) (s : string) :
  decimal_from 0 (zeros k +:+ s) = decimal_from 0 s.
Proof.
  induction k as [|k IH]; [reflexivity|]. cbn [zeros]. rewrite append_cons. exact IH.
Qed.

Lemma dec_digits_nonempty (fuel : nat) (n : Z) (rest : string) :
  dec_digits fuel n rest <> "".
Proof.
  pose proof (dec_digits_length fuel n rest) as H. intros E. rewrite E in H.
  simpl in H. lia.
Qed.

(** The numeral that [format_int] prints denotes the integer, whatever
    the width. *)
Lemma decimal_value_format_int (width : nat) (n : Z) :
  0 <= n -> decimal_value (format_int width n) = Some n.
Proof.
  intros Hn. unfold format_int. destruct (Z.ltb_spec n 0); [lia|].
  rewrite append_nil. replace (Z.abs n) with n by lia.
  assert (decimal_from 0 (zeros (width - String.length "" - String.length (dec_of_nonneg n))
                          +:+ dec_of_nonneg n) = Some n) as E
    by (rewrite decimal_from_zeros; now apply decimal_from_dec_of_nonneg).
  unfold decimal_value.
  destruct (zeros _ +:+ dec_of_nonneg n) eqn:Es; [|exact E].
  exfalso. apply (f_equal String.length) in Es. rewrite length_append in Es.
  pose proof (dec_digits_length (Z.to_nat (Z.log2 n)) n "") as H1.
  unfold dec_of_nonneg in Es. simpl in Es, H1. lia.
Qed.

(** The first digit of a positive integer is not zero. *)
Lemma dec_digits_first (fuel : nat) :
  forall n rest, 0 < n < 2 ^ (Z.of_nat fuel + 1) ->
  String.get 0 (dec_digits fuel n rest) <> Some "0"%char.
Proof.
  induction fuel as [|fuel IH]; intros n rest Hn.
  - change (2 ^ (Z.of_nat 0 + 1)) with 2 in Hn. cbn [dec_digits String.get].
    rewrite Z.mod_small by lia. intros [= E]. revert E. apply digit_char_zero. lia.
  - cbn [dec_digits]. destruct (Z.ltb_spec n 10) as [Hlt|Hge].
    + cbn [String.get]. rewrite Z.mod_small by lia.
      intros [= E]. revert E. apply digit_char_zero. lia.
    + apply IH. split; [apply Z.div_str_pos; lia|]. apply Z.div_lt_upper_bound; [lia|].
      replace (Z.of_nat (S fuel) + 1) with (Z.succ (Z.of_nat fuel + 1)) in Hn by lia.
      rewrite Z.pow_succ_r in Hn by lia. lia.
Qed.

(** From 100 on, [format_int 2] pads nothing: the numeral starts with
    its first digit. *)
Lemma format_int_no_padding (n : Z) :
  100 <= n -> format_int 2 n = dec_of_nonneg n.
Proof.
  intros Hn. pose proof (format_int_wide n Hn) as Hw. unfold format_int in *.
  destruct (Z.ltb_spec n 0); [lia|]. rewrite append_nil in *.
  replace (Z.abs n) with n in * by lia.
  rewrite length_append, length_zeros in Hw. simpl String.length in *.
  replace (2 - 0 - String.length (dec_of_nonneg n))%nat with 0%nat by lia.
  reflexivity.
Qed.

Lemma format_int_first_digit (n : Z) :
  100 <= n -> String.get 0 (format_int 2 n) <> Some "0"%char.
Proof.
  intros Hn. rewrite format_int_no_padding by exact Hn. unfold dec_of_nonneg.
  apply dec_digits_first. split; [lia|]. apply log2_fuel. lia.
Qed.

(** ** The hours field of a formatted time *)

Lemma field_before_digits (s rest : string) (acc v : Z) :
  decimal_from acc s = Some v -> field_before ":" (s +:+ String ":" rest) = s.
Proof.
  revert acc. induction s as [|c s IH]; intros acc H.
  - reflexivity.
  - rewrite append_cons. cbn [field_before]. cbn [decimal_from] in H.
    destruct (Ascii.eqb_spec c ":") as [->|_]; [discriminate H|].
    destruct (digit_of c); [|discriminate H]. f_equal. exact (IH _ H).
Qed.

Lemma hours_field_format (h : Z) (rest : string) :
  0 <= h -> hours_field (format_int 2 h +:+ ":" +:+ rest) = format_int 2 h.
Proof.
  intros Hh. unfold hours_field.
  pose proof (decimal_value_format_int 2 h Hh) as E. unfold decimal_value in E.
  destruct (format_int 2 h) as [|c r] eqn:Ef; [discriminate E|].
  rewrite <- Ef in *. change (":" +:+ rest) with (String ":" rest).
  apply (field_before_digits _ _ 0 h). exact E.
Qed.

Lemma Qfloor_unique (v : Q) (h : Z) :
  (inject_Z h * 3600 <= v)%Q -> (v < (inject_Z h + 1) * 3600)%Q -> Qfloor (v / 3600) = h.
Proof.
  intros H1 H2.
  assert (inject_Z h <= v / 3600)%Q as H3 by (apply Qle_shift_div_l; lra).
  assert (v / 3600 < inject_Z h + 1)%Q as H4 by (apply Qlt_shift_div_r; lra).
  pose proof (Qfloor_le (v / 3600)) as H5. pose proof (Qlt_floor (v / 3600)) as H6.
  rewrite inject_Z_plus in H6. change (inject_Z 1) with 1%Q in H6.
  assert (inject_Z h < inject_Z (Qfloor (v / 3600) + 1))%Q as H7
    by (rewrite inject_Z_plus; change (inject_Z 1) with 1%Q; lra).
  assert (inject_Z (Qfloor (v / 3600)) < inject_Z (h + 1))%Q as H8
    by (rewrite inject_Z_plus; change (inject_Z 1) with 1%Q; lra).
  rewrite <- Zlt_Qlt in H7, H8. lia.
Qed.




(** ** Strings and paths *)

Lemma rfind_lower_bound (c : ascii) (s : string) : -1 <= rfind c s.
Proof.
  induction s as [|a r IH]; simpl; [lia|].
  destruct (0 <=? rfind c r) eqn:E; [apply Z.leb_le in E; lia|].
  destruct (Ascii.eqb a c); lia.
Qed.

Lemma rfind_cons (c a : ascii) (r : string) :
  rfind c (String a r) =
  if 0 <=? rfind c r then rfind c r + 1 else if Ascii.eqb a c then 0 else -1.
Proof. reflexivity. Qed.

Lemma rfind_absent (c : ascii) (s : string) :
  contains c s = false <-> rfind c s = -1.
Proof.
  induction s as [|a r IH]; simpl; [tauto|].
  pose proof (rfind_lower_bound c r) as Hlb.
  destruct (0 <=? rfind c r) eqn:E.
  - apply Z.leb_le in E. split.
    + intros H. apply orb_false_elim in H as [_ H]. apply IH in H. lia.
    + lia.
  - apply Z.leb_gt in E. assert (rfind c r = -1) as Hr by lia.
    apply IH in Hr. rewrite Hr, orb_false_r.
    destruct (Ascii.eqb a c); split; intros; try discriminate; auto.
Qed.

Lemma contains_app (c : ascii) (s1 s2 : string) :
  contains c (s1 +:+ s2) = contains c s1 || contains c s2.
Proof.
  induction s1 as [|a r IH]; simpl; [reflexivity|].
  now rewrite IH, orb_assoc.
Qed.

Lemma contains_substring (c : ascii) (s : string) (n m : nat) :
  contains c s = false -> contains c (substring n m s) = false.
Proof.
  revert n m. induction s as [|a r IH]; intros n m H.
  - destruct n, m; reflexivity.
  - simpl in H. apply orb_false_elim in H as [Ha Hr].
    destruct n as [|n].
    + destruct m as [|m]; simpl; [reflexivity|]. now rewrite Ha, IH.
    + simpl. now apply IH.
Qed.

Lemma substring_zero (s : string) : substring 0 0 s = "".
Proof. destruct s; reflexivity. Qed.

Lemma substring_all (s : string) : substring 0 (String.length s) s = s.
Proof. induction s as [|a r IH]; simpl; [reflexivity | now rewrite IH]. Qed.

Lemma basename_step (a : ascii) (r : string) :
  0 <= rfind slash r -> os_path_basename (String a r) = os_path_basename r.
Proof.
  intros H. unfold os_path_basename, slice_from. simpl rfind.
  apply Z.leb_le in H as Hb. rewrite Hb.
  replace (Z.to_nat (rfind slash r + 1 + 1)) with (S (Z.to_nat (rfind slash r + 1))) by lia.
  reflexivity.
Qed.

Lemma basename_no_slash (p : string) : contains slash (os_path_basename p) = false.
Proof.
  induction p as [|a r IH]; [reflexivity|].
  pose proof (rfind_lower_bound slash r) as Hlb.
  destruct (Z.le_gt_cases 0 (rfind slash r)) as [Hge|Hlt].
  - now rewrite basename_step.
  - assert (rfind slash r = -1) as Hr by lia.
    pose proof (proj2 (rfind_absent slash r) Hr) as Hno.
    unfold os_path_basename, slice_from. simpl rfind. rewrite Hr. simpl (0 <=? -1).
    cbv iota. destruct (Ascii.eqb a slash) eqn:Ea.
    + simpl. rewrite Nat.sub_0_r. change (substring 0 (String.length r) r) with
        (substring 0 (String.length r) r). now rewrite substring_all.
    + simpl. rewrite substring_all. simpl. now rewrite Ea, Hno.
Qed.

Lemma splitext_no_slash (p : string) :
  contains slash p = false -> contains slash (fst (os_path_splitext p)) = false.
Proof.
  intros H. unfold os_path_splitext.
  destruct (_ && _); simpl; [|assumption].
  unfold slice_to. now apply contains_substring.
Qed.

Lemma derived_output_dirname (audio_path : string) :
  os_path_dirname (derived_output audio_path) = "result".
Proof.
  unfold derived_output, os_path_dirname.
  set (stem := fst (os_path_splitext (os_path_basename audio_path))).
  assert (rfind slash (stem +:+ ".txt") = -1) as Hr.
  { apply rfind_absent. rewrite contains_app.
    unfold stem. rewrite splitext_no_slash by apply basename_no_slash. reflexivity. }
  assert (rfind slash ("result" +:+ "/" +:+ stem +:+ ".txt") = 6) as Hi.
  { repeat first [rewrite append_cons | rewrite append_nil].
    rewrite !rfind_cons, Hr. reflexivity. }
  rewrite Hi. repeat first [rewrite append_cons | rewrite append_nil].
  unfold slice_to. change (Z.to_nat (6 + 1)) with 7%nat.
  cbn [substring]. rewrite substring_zero. reflexivity.
Qed.

Section Properties.

Context {W : Whisper}.

Implicit Types (w : world W) (args : Args).

(** ** The monad *)

(** The two laws of [bind] that the proofs use. *)
Lemma bind_ok {A B : Type} (c : M W A) (k : A -> M W B) w w' a :
  c w = (w', Ok a) -> bind c k w = k a w'.
Proof. intros H. unfold bind. now rewrite H. Qed.

Lemma bind_raise {A B : Type} (c : M W A) (k : A -> M W B) w w' e :
  c w = (w', Raise e) -> bind c k w = (w', Raise e).
Proof. intros H. unfold bind. now rewrite H. Qed.

Lemma emit_nil w : emit w [] = w.
Proof. destruct w. unfold emit. simpl. now rewrite app_nil_r. Qed.

Lemma emit_emit w l1 l2 : emit (emit w l1) l2 = emit w (l1 ++ l2)%list.
Proof. unfold emit. simpl. now rewrite app_assoc. Qed.

(** ** print_word_timestamps *)

Lemma print_segment_lines (seg : Segment) w :
  segment_times_format seg = true ->
  print_segment seg w = (emit w (segment_lines seg), Ok tt).
Proof.
  unfold segment_times_format, print_segment, segment_lines, formatted.
  destruct (words_of seg) as [|first rest] eqn:Hw.
  - intros _. unfold ret. now rewrite emit_nil.
  - intros H. apply andb_prop in H as [H1 H2].
    destruct (format_time (word_start first)) as [s1|] eqn:E1; [|discriminate].
    destruct (format_time (word_end (List.last (first :: rest) first))) as [s2|] eqn:E2;
      [|discriminate].
    unfold bind, lift. reflexivity.
Qed.

Lemma for_each_segments (segs : list Segment) w :
  Forall (fun seg => segment_times_format seg = true) segs ->
  for_each print_segment segs w = (emit w (flat_map segment_lines segs), Ok tt).
Proof.
  intros H. revert w. induction H as [|seg segs Hseg _ IH]; intros w.
  - simpl. unfold ret. now rewrite emit_nil.
  - simpl. rewrite (bind_ok _ _ _ _ _ (print_segment_lines seg w Hseg)).
    rewrite IH. now rewrite emit_emit.
Qed.

(** Non-negative finite times are formatted. *)
Lemma segment_times_format_fin (seg : Segment) :
  Forall (fun word => fin_nonneg (word_start word) /\ fin_nonneg (word_end word))
         (words_of seg) ->
  segment_times_format seg = true.
Proof.
  unfold segment_times_format. intros H.
  destruct (words_of seg) as [|first rest] eqn:E; [reflexivity|].
  assert (forall d, fin_nonneg (word_end d) ->
                    fin_nonneg (word_end (List.last (first :: rest) d))) as Hlast.
  { clear E. induction H as [|a l [_ Ha] _ IH]; intros d Hd; [exact Hd|].
    destruct l as [|b l']; [exact Ha|]. apply IH. exact Hd. }
  inversion H as [|? ? [H1 H2] _]; subst.
  rewrite (format_time_returns _ H1), (format_time_returns _ (Hlast first H2)).
  reflexivity.
Qed.

(** C2: [print_word_timestamps] goes through the segments in order and
    prints, for each segment with words, one line made of the formatted
    start of its first word, the formatted end of its last word and the
    text of the segment; a segment without words prints nothing.  The
    segment's own start and end are not read.  The times of the words are
    such that [format_time] returns on them. *)
Theorem print_word_timestamps_lines (r : TranscriptionResult) w :
  Forall (fun seg => segment_times_format seg = true) (segments_of r) ->
  print_word_timestamps r w = (emit w (flat_map segment_lines (segments_of r)), Ok tt) /\
  (forall seg, words_of seg = [] -> segment_lines seg = []) /\
  (forall seg first rest, words_of seg = first :: rest ->
     segment_lines seg =
       [formatted (word_start first) +:+ " --> " +:+
        formatted (word_end (List.last (first :: rest) first)) +:+
        newline +:+ " [segment]: " +:+ seg_text seg]).
Proof.
  intros H. split; [|split].
  - unfold print_word_timestamps. fold (segments_of r). now apply for_each_segments.
  - intros seg Hw. unfold segment_lines. now rewrite Hw.
  - intros seg first rest Hw. unfold segment_lines. now rewrite Hw.
Qed.

(** ** The file system *)

Lemma entry_set_entry (name : string) (n : node) (es : list (string * node)) :
  entry name (set_entry name n es) = Some n.
Proof.
  induction es as [|[k v] es IH]; cbn [set_entry entry].
  - now rewrite String.eqb_refl.
  - destruct (String.eqb k name) eqn:E; cbn [entry]; rewrite E; auto.
Qed.

Lemma entry_set_entry_ne (name other : string) (n : node) (es : list (string * node)) :
  other <> name -> entry other (set_entry name n es) = entry other es.
Proof.
  intros Hne. induction es as [|[k v] es IH]; cbn [set_entry entry].
  - destruct (String.eqb_spec name other); congruence.
  - destruct (String.eqb_spec k name) as [->|Hk]; cbn [entry].
    + destruct (String.eqb_spec name other); congruence.
    + now rewrite IH.
Qed.

(** ** Lookup after an update *)

Lemma check_dir_ok (t : tree) (k : list string) :
  check_dir t k = Ok tt <-> is_dir (node_at t k) = true.
Proof.
  unfold check_dir. destruct (node_at t k) as [[c|es]|]; simpl; split; congruence.
Qed.

Lemma node_at_put (k : list string) (n : node) :
  forall t, k <> [] -> is_dir (node_at t (removelast k)) = true ->
  node_at (put k n t) k = Some n.
Proof.
  induction k as [|name rest IH]; intros t Hne Hdir; [congruence|].
  destruct rest as [|r rs].
  - cbn [put node_at]. rewrite entry_set_entry. now destruct n.
  - change (removelast (name :: r :: rs)) with (name :: removelast (r :: rs)) in Hdir.
    cbn [node_at] in Hdir. cbn [put].
    destruct (entry name t) as [[c|sub]|] eqn:E.
    + destruct (removelast (r :: rs)); discriminate Hdir.
    + cbn [node_at]. rewrite entry_set_entry. apply IH; [discriminate|exact Hdir].
    + discriminate Hdir.
Qed.

(** Writing a file where no directory is keeps every directory. *)
Lemma put_file_keeps_dir (k : list string) (s : string) :
  forall t q, is_dir (node_at t k) = false -> is_dir (node_at t q) = true ->
  is_dir (node_at (put k (File s) t) q) = true.
Proof.
  induction k as [|name rest IH]; intros t q Hk Hq; [exact Hq|].
  destruct q as [|n' q']; [reflexivity|].
  cbn [node_at] in Hq.
  destruct rest as [|r rs].
  - cbn [put node_at]. cbn [node_at] in Hk.
    destruct (String.eqb_spec n' name) as [->|Hne].
    + destruct (entry name t) as [[c|sub]|]; [|discriminate Hk|discriminate Hq].
      destruct q'; discriminate Hq.
    + now rewrite entry_set_entry_ne.
  - cbn [put]. cbn [node_at] in Hk.
    destruct (entry name t) as [[c|sub]|] eqn:E; cbn [node_at]; try exact Hq.
    destruct (String.eqb_spec n' name) as [->|Hne].
    + rewrite entry_set_entry. rewrite E in Hq. apply IH; assumption.
    + rewrite entry_set_entry_ne by exact Hne. exact Hq.
Qed.

(** It keeps what exists. *)
Lemma put_file_keeps (k : list string) (s : string) :
  forall t q, is_dir (node_at t k) = false -> is_Some (node_at t q) ->
  is_Some (node_at (put k (File s) t) q).
Proof.
  induction k as [|name rest IH]; intros t q Hk Hq; [exact Hq|].
  destruct q as [|n' q']; [cbn; eauto|].
  cbn [node_at] in Hq.
  destruct rest as [|r rs].
  - cbn [put node_at]. cbn [node_at] in Hk.
    destruct (String.eqb_spec n' name) as [->|Hne].
    + rewrite entry_set_entry.
      destruct (entry name t) as [[c|sub]|]; [|discriminate Hk|destruct Hq; discriminate].
      destruct q'; [eauto|exact Hq].
    + now rewrite entry_set_entry_ne.
  - cbn [put]. cbn [node_at] in Hk.
    destruct (entry name t) as [[c|sub]|] eqn:E; cbn [node_at]; try exact Hq.
    destruct (String.eqb_spec n' name) as [->|Hne].
    + rewrite entry_set_entry. rewrite E in Hq. apply IH; assumption.
    + rewrite entry_set_entry_ne by exact Hne. exact Hq.
Qed.

Lemma walk_put_file (k : list string) (s : string) (t : tree) (comps : list string) :
  is_dir (node_at t k) = false ->
  forall cur r, walk t cur comps = Ok r -> walk (put k (File s) t) cur comps = Ok r.
Proof.
  intros Hk. induction comps as [|c rest IH]; intros cur r H; [exact H|].
  cbn [walk] in *.
  destruct (check_dir t cur) as [[]|e] eqn:Hc; [|discriminate H].
  apply check_dir_ok in Hc.
  assert (check_dir (put k (File s) t) cur = Ok tt) as ->
    by (apply check_dir_ok; now apply put_file_keeps_dir).
  cbn [res_bind] in *.
  destruct (String.eqb c "" || String.eqb c "."); [now apply IH|].
  destruct (String.eqb c ".."); now apply IH.
Qed.

Lemma walk_app (t : tree) (a b : list string) :
  forall cur, walk t cur (a ++ b)%list = let! c := walk t cur a in walk t c b.
Proof.
  induction a as [|x a IH]; intros cur; [reflexivity|].
  cbn [app walk]. destruct (check_dir t cur) as [[]|e]; [|reflexivity]. cbn [res_bind].
  destruct (String.eqb x "" || String.eqb x "."); [apply IH|].
  destruct (String.eqb x ".."); apply IH.
Qed.

Lemma split_slash_nonempty (s : string) : split_slash s <> [].
Proof.
  destruct s as [|c r]; cbn [split_slash]; [discriminate|].
  destruct (Ascii.eqb c "/"); [discriminate|]. destruct (split_slash r); discriminate.
Qed.

(** A path that can be opened for writing resolves to the place of the
    file, in a directory, where no directory is. *)
Lemma open_for_writing_resolve (t : tree) (p : string) (k : list string) :
  open_for_writing t p = Ok k ->
  resolve t p = Ok k /\ k <> [] /\ is_dir (node_at t (removelast k)) = true /\
  is_dir (node_at t k) = false.
Proof.
  unfold open_for_writing, resolve. destruct (String.eqb p ""); [discriminate|].
  set (comps := split_slash p). set (name := List.last comps "").
  destruct (String.eqb_spec name "") as [E|Hname].
  { destruct (walk t [] _) as [d|e]; [|discriminate]. cbn [res_bind].
    destruct (check_dir t d) as [[]|e]; discriminate. }
  destruct (walk t [] (removelast comps)) as [d|e] eqn:Hw; [|discriminate].
  cbn [res_bind]. destruct (check_dir t d) as [[]|e] eqn:Hc; [|discriminate].
  cbn [res_bind]. destruct (String.eqb name "." || String.eqb name "..") eqn:Hdots;
    [discriminate|].
  apply orb_false_elim in Hdots as [Hd1 Hd2].
  intros H.
  assert (k = (d ++ [name])%list /\ is_dir (node_at t k) = false) as [-> Hnd].
  { destruct (node_at t (d ++ [name])%list) as [[c|es]|] eqn:E; try discriminate H;
      injection H as <-; rewrite E; auto. }
  split; [|split; [now destruct d|split; [|exact Hnd]]].
  - pose proof (app_removelast_last "" (split_slash_nonempty p)) as Hsplit.
    fold comps in Hsplit. fold name in Hsplit. rewrite Hsplit.
    rewrite walk_app, Hw. cbn [res_bind walk]. rewrite Hc. cbn [res_bind].
    destruct (String.eqb_spec name ""); [contradiction|].
    cbn [orb]. rewrite Hd1, Hd2. reflexivity.
  - rewrite List.removelast_last. now apply check_dir_ok.
Qed.

(** ** The file system as a map from paths *)

Lemma lookup_stat (t : tree) (p : string) (n : node) :
  t !! p = Some n <-> os_stat t p = Ok n.
Proof.
  unfold lookup, tree_lookup. destruct (os_stat t p); split; congruence.
Qed.

Lemma lookup_resolved (t : tree) (p : string) (k : list string) :
  resolve t p = Ok k -> t !! p = node_at t k.
Proof.
  intros H. unfold lookup, tree_lookup, os_stat. rewrite H. cbn [res_bind].
  now destruct (node_at t k).
Qed.

(** After a write, the path names the file. *)
Lemma lookup_written (t : tree) (p s : string) (k : list string) :
  open_for_writing t p = Ok k ->
  <[p := File s]> t = put k (File s) t /\
  (put k (File s) t) !! p = Some (File s).
Proof.
  intros H. destruct (open_for_writing_resolve t p k H) as (Hr & Hne & Hdir & Hnd).
  split.
  - unfold insert, tree_insert. now rewrite Hr.
  - assert (resolve (put k (File s) t) p = Ok k) as Hr'.
    { unfold resolve in *. destruct (String.eqb p ""); [discriminate|].
      now apply walk_put_file. }
    rewrite (lookup_resolved _ _ _ Hr'). now apply node_at_put.
Qed.

(** ** The choice of the input file *)

Lemma is_audio_name_spec (f : string) :
  is_audio_name f = true <->
  exists suffix, In suffix [".wav"; ".mp3"; ".flac"; ".m4a"] /\ endswith (lower f) suffix = true.
Proof.
  unfold is_audio_name, audio_suffixes. rewrite existsb_exists.
  split; intros (x & Hx & Hy); exists x; auto.
Qed.

Lemma filter_first {A : Type} (f : A -> bool) (l : list A) (x : A) (rest : list A) :
  List.filter f l = x :: rest ->
  exists pre post, l = (pre ++ x :: post)%list /\ f x = true /\
                   Forall (fun y => f y = false) pre.
Proof.
  induction l as [|a l IH]; simpl; [discriminate|].
  destruct (f a) eqn:Ha.
  - intros [= -> <-]. exists [], l. repeat split; auto.
  - intros H. destruct (IH H) as (pre & post & -> & Hx & Hpre).
    exists (a :: pre), post. repeat split; auto.
Qed.

(** C4: without an audio file argument, [main] looks into the folder
    argument, or into ./target when there is none.  A folder that does
    not exist gives the folder-not-found message and nothing else.
    Otherwise the entries are filtered to the names that end, case
    ignored, in .wav, .mp3, .flac or .m4a; an empty selection gives the
    no-audio-files message and nothing else; otherwise the first such
    entry in listing order, joined to the folder, is printed as the
    selected file and processed. *)
Theorem main_auto_select args w :
  audio_file args = None ->
  let d := target_dir_of args in
  (folder args = None -> d = "./target") /\
  (forall f, folder args = Some f -> f <> "" -> d = f) /\
  (fs w !! d = None ->
     main args w = (emit w ["오류: '" +:+ d +:+ "' 폴더를 찾을 수 없습니다."], Ok tt)) /\
  (forall entries, fs w !! d = Some (Dir entries) ->
     List.filter is_audio_name (List.map fst entries) = [] ->
     main args w = (emit w ["오류: '" +:+ d +:+ "' 폴더에 음원 파일이 없습니다."], Ok tt)) /\
  (forall entries first rest, fs w !! d = Some (Dir entries) ->
     List.filter is_audio_name (List.map fst entries) = first :: rest ->
     (exists pre post, List.map fst entries = (pre ++ first :: post)%list /\
        Forall (fun f => is_audio_name f = false) pre /\
        exists suffix, In suffix [".wav"; ".mp3"; ".flac"; ".m4a"] /\
                       endswith (lower first) suffix = true) /\
     main args w =
       transcribe_and_report args (os_path_join d first)
         (emit w ["자동 선택된 오디오 파일: " +:+ os_path_join d first])).
Proof.
  intros Hnone d. subst d.
  split; [|split; [|split; [|split]]].
  - intros Hf. unfold target_dir_of. now rewrite Hf.
  - intros f Hf Hne. unfold target_dir_of. rewrite Hf.
    destruct (String.eqb_spec f ""); congruence.
  - intros Hfs. unfold main. rewrite Hnone. unfold bind, os_path_exists.
    rewrite Hfs. rewrite bool_decide_eq_false_2 by (intros [? ?]; discriminate).
    reflexivity.
  - intros entries Hfs Hfilter. unfold main. rewrite Hnone.
    unfold bind, os_path_exists, os_listdir. rewrite Hfs.
    rewrite bool_decide_eq_true_2 by eauto. cbn [negb].
    apply lookup_stat in Hfs. rewrite Hfs, Hfilter. reflexivity.
  - intros entries first rest Hfs Hfilter. split.
    + destruct (filter_first _ _ _ _ Hfilter) as (pre & post & Hl & Hx & Hpre).
      exists pre, post. split; [exact Hl|]. split; [exact Hpre|].
      now apply is_audio_name_spec.
    + unfold main. rewrite Hnone.
      unfold bind, os_path_exists, os_listdir. rewrite Hfs.
      rewrite bool_decide_eq_true_2 by eauto. cbn [negb].
      apply lookup_stat in Hfs. rewrite Hfs, Hfilter. reflexivity.
Qed.

(** C5: with an explicit audio file that does not exist, [main] prints
    the file-not-found message and returns normally: no exception, no
    call into the library, no change of the files.  With an explicit file
    that exists, that very path is what is transcribed and reported. *)
Theorem main_explicit_file args w (p : string) :
  audio_file args = Some p ->
  (fs w !! p = None ->
     main args w = (emit w ["오류: '" +:+ p +:+ "' 파일을 찾을 수 없습니다"], Ok tt) /\
     calls (fst (main args w)) = calls w /\
     lib (fst (main args w)) = lib w /\
     fs (fst (main args w)) = fs w) /\
  (is_Some (fs w !! p) -> main args w = transcribe_and_report args p w).
Proof.
  intros Hp. split.
  - intros Hfs.
    assert (main args w = (emit w ["오류: '" +:+ p +:+ "' 파일을 찾을 수 없습니다"], Ok tt)) as E.
    { unfold main. rewrite Hp. unfold bind, os_path_exists. rewrite Hfs.
      rewrite bool_decide_eq_false_2 by (intros [? ?]; discriminate). reflexivity. }
    rewrite E. repeat split.
  - intros Hfs. unfold main. rewrite Hp. unfold bind, os_path_exists.
    rewrite bool_decide_eq_true_2 by assumption. reflexivity.
Qed.

(** C10: with an explicit audio file, the folder argument plays no part:
    two runs that differ only in it are equal, and the run either reports
    the missing file or processes the file, whatever the folder is. *)
Theorem main_ignores_folder args w (p : string) (f1 f2 : option string) :
  audio_file args = Some p ->
  main (with_folder f1 args) w = main (with_folder f2 args) w /\
  (main (with_folder f1 args) w =
     (emit w ["오류: '" +:+ p +:+ "' 파일을 찾을 수 없습니다"], Ok tt) \/
   main (with_folder f1 args) w = transcribe_and_report args p w).
Proof.
  intros Hp. split.
  - unfold main, with_folder. simpl. rewrite Hp. reflexivity.
  - unfold main, with_folder. simpl. rewrite Hp. unfold bind, os_path_exists.
    destruct (bool_decide (is_Some (fs w !! p))); [right|left]; reflexivity.
Qed.

(** ** save_transcription *)

Lemma resolve_result (t : tree) : resolve t "result" = Ok ["result"].
Proof. reflexivity. Qed.

Lemma lookup_result (t : tree) : t !! "result" = node_at t ["result"].
Proof. apply lookup_resolved, resolve_result. Qed.

Lemma insert_result (t : tree) : <["result" := Dir []]> t = put ["result"] (Dir []) t.
Proof. reflexivity. Qed.

Lemma ensure_result_dir_present (files : tree) :
  is_Some (ensure_result_dir files !! "result").
Proof.
  unfold ensure_result_dir. destruct (files !! "result") eqn:E.
  - rewrite E. eauto.
  - rewrite insert_result, lookup_result, node_at_put by (reflexivity || discriminate). eauto.
Qed.

Lemma ensure_result_dir_is_dir (files : tree) :
  is_file (files !! "result") = false ->
  is_dir (ensure_result_dir files !! "result") = true.
Proof.
  unfold ensure_result_dir. destruct (files !! "result") as [[c|es]|] eqn:E; simpl.
  - discriminate.
  - intros _. now rewrite E.
  - intros _. now rewrite insert_result, lookup_result, node_at_put
      by (reflexivity || discriminate).
Qed.

(** [os.makedirs("result")] is one [mkdir] in the working directory. *)
Lemma os_makedirs_result w :
  fs w !! "result" = None ->
  os_makedirs "result" w = (set_fs w (<["result" := Dir []]> (fs w)), Ok tt).
Proof.
  intros Hnone. rewrite lookup_result in Hnone.
  change (os_makedirs "result" w) with (os_mkdir "result" w).
  unfold os_mkdir.
  change (mkdir_place (fs w) "result") with
    (match node_at (fs w) ["result"] with
     | Some _ => Raise FileExistsError
     | None => Ok ["result"]
     end).
  now rewrite Hnone.
Qed.

Lemma save_transcription_unfold (r : TranscriptionResult) (o a : option string) w :
  save_transcription r o a w =
  let w1 := set_fs w (ensure_result_dir (fs w)) in
  let f := match o, a with
           | None, Some ap => Some (derived_output ap)
           | _, _ => o
           end in
  bind (match f with
        | Some f => if negb (String.eqb f "")
                    then bind (write_text f (text r)) (fun _ => print (saved_message f))
                    else ret tt
        | None => ret tt
        end) (fun _ => ret f) w1.
Proof.
  unfold save_transcription.
  rewrite (bind_ok _ _ w w (bool_decide (is_Some (fs w !! result_dir)))) by reflexivity.
  unfold bind at 1.
  unfold ret, result_dir, ensure_result_dir.
  destruct (fs w !! "result") as [n|] eqn:E.
  - rewrite bool_decide_eq_true_2 by eauto. cbn [negb].
    replace (set_fs w (fs w)) with w by now destruct w. reflexivity.
  - rewrite bool_decide_eq_false_2 by (intros [? ?]; discriminate). cbn [negb].
    rewrite (os_makedirs_result w E). reflexivity.
Qed.

Lemma write_text_ok (p s : string) w :
  can_write (fs w) p = true ->
  write_text p s w = (set_fs w (<[p := File s]> (fs w)), Ok tt) /\
  (<[p := File s]> (fs w)) !! p = Some (File s).
Proof.
  unfold can_write, write_text. intros H.
  destruct (open_for_writing (fs w) p) as [k|e] eqn:E; [|discriminate H].
  destruct (lookup_written (fs w) p s k E) as [-> Hl]. split; [reflexivity|exact Hl].
Qed.

Lemma lookup_after_put (t : tree) (k : list string) (s q : string) :
  is_dir (node_at t k) = false ->
  (is_Some (t !! q) -> is_Some (put k (File s) t !! q)) /\
  (is_dir (t !! q) = true -> is_dir (put k (File s) t !! q) = true).
Proof.
  intros Hk. unfold lookup, tree_lookup, os_stat.
  destruct (resolve t q) as [kq|e] eqn:Hr; cbn [res_bind].
  - assert (resolve (put k (File s) t) q = Ok kq) as ->.
    { unfold resolve in *. destruct (String.eqb q ""); [discriminate|].
      now apply walk_put_file. }
    cbn [res_bind]. split.
    + intros H.
      assert (is_Some (node_at t kq)) as H' by (destruct (node_at t kq); [eauto|exact H]).
      destruct (put_file_keeps k s t kq Hk H') as [n ->]. eauto.
    + intros H.
      assert (is_dir (node_at t kq) = true) as H'
        by (destruct (node_at t kq); [exact H|discriminate H]).
      pose proof (put_file_keeps_dir k s t kq Hk H') as H2.
      destruct (node_at (put k (File s) t) kq); [exact H2|discriminate H2].
  - split; [intros [? ?]; discriminate|discriminate].
Qed.

Lemma write_text_keeps (p s q : string) w :
  is_Some (fs w !! q) -> is_Some (fs (fst (write_text p s w)) !! q).
Proof.
  intros Hq. unfold write_text.
  destruct (open_for_writing (fs w) p) as [k|e] eqn:E; [|exact Hq].
  destruct (open_for_writing_resolve _ _ _ E) as (_ & _ & _ & Hk).
  now apply lookup_after_put.
Qed.

Lemma write_text_keeps_dir (p s q : string) w :
  is_dir (fs w !! q) = true -> is_dir (fs (fst (write_text p s w)) !! q) = true.
Proof.
  intros Hq. unfold write_text.
  destruct (open_for_writing (fs w) p) as [k|e] eqn:E; [|exact Hq].
  destruct (open_for_writing_resolve _ _ _ E) as (_ & _ & _ & Hk).
  now apply lookup_after_put.
Qed.

(** ** Paths of a file in a directory *)

Lemma split_slash_plain (s : string) : contains "/" s = false -> split_slash s = [s].
Proof.
  induction s as [|c r IH]; [reflexivity|]. cbn [contains split_slash]. intros H.
  apply orb_false_elim in H as [H1 H2]. rewrite H1, (IH H2). reflexivity.
Qed.

Lemma split_slash_app (d name : string) :
  contains "/" name = false ->
  split_slash (d +:+ "/" +:+ name) = (split_slash d ++ [name])%list.
Proof.
  intros H. induction d as [|c r IH].
  - rewrite append_nil. change ("/" +:+ name) with (String "/" name).
    cbn [split_slash]. rewrite Ascii.eqb_refl, (split_slash_plain _ H). reflexivity.
  - rewrite append_cons. cbn [split_slash]. rewrite IH.
    destruct (Ascii.eqb c "/"); [reflexivity|].
    pose proof (split_slash_nonempty r) as Hne.
    destruct (split_slash r); [congruence|reflexivity].
Qed.

Lemma last_app_one {A : Type} (l : list A) (x d : A) : List.last (l ++ [x]) d = x.
Proof. apply List.last_last. Qed.

(** Where a directory [d] exists, a file with a plain name can be written
    in it unless a directory of that name is there. *)
Lemma can_write_in (t : tree) (d name : string) :
  plain_name name = true -> is_dir (t !! d) = true ->
  can_write t (d +:+ "/" +:+ name) = negb (is_dir (t !! (d +:+ "/" +:+ name))).
Proof.
  unfold plain_name. intros Hn Hd.
  apply andb_prop in Hn as [Hn Hn4]. apply andb_prop in Hn as [Hn Hn3].
  apply andb_prop in Hn as [Hn1 Hn2].
  apply negb_true_iff in Hn1, Hn2, Hn3, Hn4.
  assert (String.eqb (d +:+ "/" +:+ name) "" = false) as Hne.
  { destruct d; [reflexivity|]. rewrite append_cons. reflexivity. }
  unfold lookup, tree_lookup, os_stat, resolve in Hd.
  destruct (String.eqb d "") eqn:Hd0; [discriminate Hd|].
  destruct (walk t [] (split_slash d)) as [kd|e] eqn:Hw; [|discriminate Hd].
  cbn [res_bind] in Hd.
  assert (check_dir t kd = Ok tt) as Hc.
  { apply check_dir_ok. destruct (node_at t kd); [exact Hd|discriminate Hd]. }
  unfold can_write, open_for_writing, lookup, tree_lookup, os_stat, resolve.
  rewrite Hne, (split_slash_app _ _ Hn2), last_app_one, Hn1, List.removelast_last.
  rewrite Hw. cbn [res_bind]. rewrite Hc. cbn [res_bind]. rewrite Hn3, Hn4. cbn [orb].
  rewrite walk_app, Hw. cbn [res_bind walk]. rewrite Hc. cbn [res_bind].
  rewrite Hn1, Hn3, Hn4. cbn [orb res_bind].
  destruct (node_at t (kd ++ [name])%list) as [[c|es]|]; reflexivity.
Qed.

(** In the working directory, the same. *)
Lemma can_write_plain (t : tree) (name : string) :
  plain_name name = true -> can_write t name = negb (is_dir (t !! name)).
Proof.
  unfold plain_name. intros Hn.
  apply andb_prop in Hn as [Hn Hn4]. apply andb_prop in Hn as [Hn Hn3].
  apply andb_prop in Hn as [Hn1 Hn2].
  apply negb_true_iff in Hn1, Hn2, Hn3, Hn4.
  unfold can_write, open_for_writing, lookup, tree_lookup, os_stat, resolve.
  rewrite Hn1, (split_slash_plain _ Hn2). cbn [List.last removelast walk res_bind].
  rewrite Hn1.
  change (check_dir t []) with (Ok (A := unit) tt). cbn [res_bind].
  rewrite Hn3, Hn4. cbn [orb app res_bind].
  destruct (node_at t [name]) as [[c|es]|]; reflexivity.
Qed.

(** What cannot be written: the empty path, a path that ends in a slash,
    in [.] or in [..], and a directory. *)
Lemma can_write_refuses (t : tree) (p : string) :
  can_write t p = true ->
  p <> "" /\ List.last (split_slash p) "" <> "" /\ List.last (split_slash p) "" <> "." /\
  List.last (split_slash p) "" <> ".." /\ is_dir (t !! p) = false.
Proof.
  unfold can_write. intros H.
  destruct (open_for_writing t p) as [k|e] eqn:E; [|discriminate H].
  destruct (open_for_writing_resolve t p k E) as (Hr & _ & _ & Hk).
  rewrite (lookup_resolved _ _ _ Hr).
  unfold open_for_writing in E.
  destruct (String.eqb_spec p ""); [discriminate E|].
  destruct (String.eqb_spec (List.last (split_slash p) "") "") as [|H1].
  { destruct (walk t [] _) as [d|]; [|discriminate E]. cbn [res_bind] in E.
    destruct (check_dir t d) as [[]|]; discriminate E. }
  destruct (walk t [] _) as [d|]; [|discriminate E]. cbn [res_bind] in E.
  destruct (check_dir t d) as [[]|]; [|discriminate E]. cbn [res_bind] in E.
  destruct (String.eqb_spec (List.last (split_slash p) "") ".") as [|H2];
    [discriminate E|].
  destruct (String.eqb_spec (List.last (split_slash p) "") "..") as [|H3];
    [discriminate E|].
  auto.
Qed.

Lemma txt_name_plain (stem : string) :
  contains "/" stem = false -> plain_name (stem +:+ ".txt") = true.
Proof.
  intros H. unfold plain_name. rewrite contains_app, H.
  destruct stem as [|a [|b [|c r]]]; try reflexivity;
    rewrite !append_cons; cbn [String.eqb contains orb negb andb];
    rewrite ?andb_false_r, ?andb_true_r; cbn [negb andb]; try reflexivity.
  - destruct (Ascii.eqb a "."); reflexivity.
  - destruct (Ascii.eqb a "."), (Ascii.eqb b "."); reflexivity.
  - destruct (Ascii.eqb a "."), (Ascii.eqb b "."); reflexivity.
Qed.

Lemma derived_output_plain (ap : string) :
  exists name, derived_output ap = "result" +:+ "/" +:+ name /\ plain_name name = true.
Proof.
  exists (fst (os_path_splitext (os_path_basename ap)) +:+ ".txt").
  split; [reflexivity|]. apply txt_name_plain, splitext_no_slash, basename_no_slash.
Qed.

(** Making the result directory changes nothing below it. *)
Lemma lookup_ensure_result_dir (files : tree) (name : string) :
  plain_name name = true -> is_file (files !! "result") = false ->
  is_dir (ensure_result_dir files !! ("result" +:+ "/" +:+ name)) =
  is_dir (files !! ("result" +:+ "/" +:+ name)).
Proof.
  intros Hn Hf. unfold ensure_result_dir.
  destruct (files !! "result") as [[c|es]|] eqn:E; [discriminate Hf|reflexivity|].
  rewrite insert_result. rewrite lookup_result in E.
  unfold plain_name in Hn.
  apply andb_prop in Hn as [Hn Hn4]. apply andb_prop in Hn as [Hn Hn3].
  apply andb_prop in Hn as [Hn1 Hn2].
  apply negb_true_iff in Hn1, Hn2, Hn3, Hn4.
  assert (split_slash ("result" +:+ "/" +:+ name) = ["result"; name]) as Hs
    by (rewrite split_slash_app by exact Hn2; reflexivity).
  unfold lookup, tree_lookup, os_stat, resolve.
  change (String.eqb ("result" +:+ "/" +:+ name) "") with false. cbv iota.
  rewrite Hs. cbn [walk]. 
  change (check_dir (put ["result"] (Dir []) files) []) with (Ok (A := unit) tt).
  change (check_dir files []) with (Ok (A := unit) tt).
  cbn [res_bind app]. change (String.eqb "result" "" || String.eqb "result" ".") with false.
  change (String.eqb "result" "..") with false. cbv iota.
  unfold check_dir. rewrite E.
  rewrite (node_at_put ["result"] (Dir []) files) by (reflexivity || discriminate).
  cbn [res_bind]. rewrite Hn1, Hn3, Hn4. cbn [orb walk res_bind].
  cbn [node_at put]. rewrite entry_set_entry. cbn [entry]. reflexivity.
Qed.

(** Spellings of a directory are refused in every file system, and a
    spelling of a file in the working directory is as good as its name. *)
Lemma can_write_spellings (t : tree) :
  can_write t "" = false /\ can_write t "." = false /\ can_write t "/" = false /\
  can_write t "result/" = false /\ can_write t "result/." = false /\
  can_write t "./out.txt" = can_write t "out.txt" /\
  can_write t "out.txt" = negb (is_dir (t !! "out.txt")).
Proof.
  repeat split; try reflexivity.
  - unfold can_write, open_for_writing, check_dir. cbn.
    destruct (entry "result" t) as [[c|es]|]; reflexivity.
  - now apply can_write_plain.
Qed.


(** C8: with neither an output path nor an audio path,
    [save_transcription] writes no file, prints nothing and returns
    [None]; it creates the result directory when no entry of that name
    exists.  After every call, with any arguments and whether or not the
    write succeeds, [os.path.exists("result")] holds, and [result] is a
    directory unless it was a regular file before. *)
Theorem save_transcription_result_dir
    (r : TranscriptionResult) (o a : option string) w :
  save_transcription r None None w = (set_fs w (ensure_result_dir (fs w)), Ok None) /\
  (fs w !! "result" = None ->
     fs (fst (save_transcription r None None w)) = <["result" := Dir []]> (fs w)) /\
  (is_Some (fs w !! "result") ->
     fs (fst (save_transcription r None None w)) = fs w) /\
  is_Some (fs (fst (save_transcription r o a w)) !! "result") /\
  (is_file (fs w !! "result") = false ->
     is_dir (fs (fst (save_transcription r o a w)) !! "result") = true).
Proof.
  assert (save_transcription r None None w =
          (set_fs w (ensure_result_dir (fs w)), Ok None)) as E.
  { rewrite save_transcription_unfold. reflexivity. }
  split; [exact E|]. split; [|split; [|split]].
  - intros Hnone. rewrite E. simpl. unfold ensure_result_dir. now rewrite Hnone.
  - intros [n Hn]. rewrite E. simpl. unfold ensure_result_dir. now rewrite Hn.
  - rewrite save_transcription_unfold. cbv zeta.
    set (w1 := set_fs w (ensure_result_dir (fs w))).
    assert (is_Some (fs w1 !! "result")) as H1 by apply ensure_result_dir_present.
    destruct (match o, a with None, Some ap => Some (derived_output ap) | _, _ => o end)
      as [f|]; [|exact H1].
    destruct (negb (String.eqb f "")); [|exact H1].
    pose proof (write_text_keeps f (text r) "result" w1 H1) as H2.
    unfold bind. destruct (write_text f (text r) w1) as [w2 [[]|e]]; exact H2.
  - intros Hfile. rewrite save_transcription_unfold. cbv zeta.
    set (w1 := set_fs w (ensure_result_dir (fs w))).
    assert (is_dir (fs w1 !! "result") = true) as H1
      by now apply ensure_result_dir_is_dir.
    destruct (match o, a with None, Some ap => Some (derived_output ap) | _, _ => o end)
      as [f|]; [|exact H1].
    destruct (negb (String.eqb f "")); [|exact H1].
    pose proof (write_text_keeps_dir f (text r) "result" w1 H1) as H2.
    unfold bind. destruct (write_text f (text r) w1) as [w2 [[]|e]]; exact H2.
Qed.

(** ** transcribe_audio *)

(** One step of a run: name the outcome of the next library operation or
    clock reading and reduce. *)
Ltac run_step :=
  match goal with
  | |- context [time_time ?l] => destruct (time_time l) as [? ?] eqn:?
  | |- context [load_model ?n ?l] => destruct (load_model n l) as [? [?|?]] eqn:?
  | |- context [load_audio ?n ?l] => destruct (load_audio n l) as [? [?|?]] eqn:?
  | |- context [pad_or_trim ?a ?l] => destruct (pad_or_trim a l) as [? [?|?]] eqn:?
  | |- context [log_mel_spectrogram ?a ?n ?l] =>
      destruct (log_mel_spectrogram a n l) as [? [?|?]] eqn:?
  | |- context [mel_to ?m ?d ?l] => destruct (mel_to m d l) as [? [?|?]] eqn:?
  | |- context [detect_language ?m ?x ?l] =>
      destruct (detect_language m x l) as [? [?|?]] eqn:?
  | |- context [max_key ?p] => destruct (max_key p) as [?|?] eqn:?
  | |- context [probs_get ?p ?k] => destruct (probs_get p k) as [?|] eqn:?
  | |- context [decode ?m ?x ?o ?l] => destruct (decode m x o l) as [? [?|?]] eqn:?
  | |- context [transcribe ?m ?p ?g ?b ?l] =>
      destruct (transcribe m p g b l) as [? [?|?]] eqn:?
  end; cbn [fst snd fs out lib calls].

Ltac run_all := repeat run_step.

Lemma transcribe_audio_calls (audio_path model_name : string) (verbose wt : bool) w :
  exists l, calls (fst (transcribe_audio audio_path model_name verbose wt w)) =
            (calls w ++ l)%list /\
            Forall asks_word_timestamps l.
Proof.
  unfold transcribe_audio, bind, call, now, print, ret, lift.
  destruct verbose; cbn [fst snd fs out lib calls]; run_all;
    rewrite <- ?app_assoc; eexists; (split; [reflexivity|]);
    cbn [app]; repeat constructor.
Qed.

(** C9: the [word_timestamps] argument of [transcribe_audio] is not read:
    two runs that differ only in it are the same run, with the same
    result, output and calls; and whenever [model.transcribe] is called,
    it is with [word_timestamps=True]. *)
Theorem transcribe_audio_ignores_word_timestamps
    (audio_path model_name : string) (verbose wt1 wt2 : bool) w :
  transcribe_audio audio_path model_name verbose wt1 w =
  transcribe_audio audio_path model_name verbose wt2 w /\
  exists l, calls (fst (transcribe_audio audio_path model_name verbose wt1 w)) =
            (calls w ++ l)%list /\
            Forall asks_word_timestamps l.
Proof.
  split; [reflexivity | apply transcribe_audio_calls].
Qed.


(** A decoding that raises leaves [transcribe_audio] without a result:
    the run ends in an exception, that of the decoding or an earlier
    one. *)
Lemma decode_raises_aborts
    (audio_path model_name : string) (verbose wt : bool) w :
  (forall m x o l, exists l' e, decode m x o l = (l', Raise e)) ->
  forall res, snd (transcribe_audio audio_path model_name verbose wt w) <> Ok res.
Proof.
  intros Hraise res.
  unfold transcribe_audio, bind, call, now, print, ret, lift.
  destruct verbose; cbn [fst snd fs out lib calls];
    repeat (first
      [ match goal with
        | |- context [decode ?m ?x ?o ?l] =>
            destruct (Hraise m x o l) as (? & ? & ->); cbn [fst snd fs out lib calls]
        end
      | run_step ]);
    discriminate.
Qed.


End Properties.

(** * The properties on concrete inputs *)

Lemma print_word_timestamps_lines_witness :
  Forall (fun seg => segment_times_format seg = true) (segments_of Demo.hello) /\
  print_word_timestamps Demo.hello (Demo.start ∅) =
    (emit (Demo.start ∅)
       ["00:00:01.000 --> 00:00:01.500" +:+ newline +:+ " [segment]: hi"], Ok tt).
Proof.
  assert (Forall (fun seg => segment_times_format seg = true) (segments_of Demo.hello)) as H
    by (repeat constructor).
  split; [exact H|].
  exact (proj1 (print_word_timestamps_lines Demo.hello (Demo.start ∅) H)).
Defined.


Lemma main_auto_select_witness :
  audio_file Demo.args0 = None /\
  main Demo.args0 (Demo.start Demo.files0) =
    transcribe_and_report Demo.args0 "./target/Demo.WAV"
      (emit (Demo.start Demo.files0) ["자동 선택된 오디오 파일: ./target/Demo.WAV"]).
Proof.
  split; [reflexivity|].
  destruct (main_auto_select Demo.args0 (Demo.start Demo.files0) eq_refl)
    as (_ & _ & _ & _ & H).
  exact (proj2 (H [("notes.txt", File ""); ("Demo.WAV", File ""); ("b.mp3", File "")]
                  "Demo.WAV" ["b.mp3"] eq_refl eq_refl)).
Defined.

Lemma main_explicit_file_witness :
  audio_file (Demo.args_of "missing.wav") = Some "missing.wav" /\
  Demo.files0 !! "missing.wav" = None /\
  main (Demo.args_of "missing.wav") (Demo.start Demo.files0) =
    (emit (Demo.start Demo.files0) ["오류: 'missing.wav' 파일을 찾을 수 없습니다"], Ok tt).
Proof.
  split; [reflexivity|]. split; [reflexivity|].
  exact (proj1 (proj1 (main_explicit_file (Demo.args_of "missing.wav")
                         (Demo.start Demo.files0) "missing.wav" eq_refl) eq_refl)).
Defined.



Lemma save_transcription_result_dir_witness :
  (∅ : tree) !! "result" = None /\
  fs (fst (save_transcription Demo.hello None None (Demo.start ∅))) =
    <["result" := Dir []]> ∅.
Proof.
  split; [reflexivity|].
  exact (proj1 (proj2 (save_transcription_result_dir Demo.hello None None (Demo.start ∅)))
           eq_refl).
Defined.

Lemma main_ignores_folder_witness :
  audio_file (Demo.args_of "a.wav") = Some "a.wav" /\
  main (with_folder (Some "nowhere") (Demo.args_of "a.wav")) (Demo.start Demo.files0) =
  main (with_folder None (Demo.args_of "a.wav")) (Demo.start Demo.files0).
Proof.
  split; [reflexivity|].
  exact (proj1 (main_ignores_folder (Demo.args_of "a.wav") (Demo.start Demo.files0)
                  "a.wav" (Some "nowhere") None eq_refl)).
Defined.
